(** * The catalog sync of [scripts/sync_mcp_direct.py]

    The reconciliation engine of the repository is the PL/pgSQL text that
    [create_sync_functions] installs in the database: the three helpers
    [generate_server_id], [extract_tags], [determine_category] and the
    procedure [sync_mcp_servers_from_pulsemcp].  This file embeds that text
    function by function and states the properties of the specification
    against it.

    Texts are ASCII strings; [lower] folds the letters A-Z only, which is
    what PostgreSQL's [lower] does on such texts. *)

From Stdlib Require Import String Ascii List ZArith Lia Bool PeanoNat.
Import ListNotations.

Open Scope string_scope.

(** ** Errors and outcomes *)

(** A JSON value that is not an array is an object or a scalar (a string, a
    number, a boolean or [null]); the jsonb functions say which in their
    messages. *)
Inductive json_kind : Type :=
| json_object
| json_scalar.

(** The conditions the modelled statements can raise.  All of them are
    caught by [EXCEPTION WHEN OTHERS]. *)
Inductive sql_error : Type :=
| undefined_column (x : string)
| ambiguous_column (x : string)
| invalid_regular_expression
| integer_out_of_range
| not_null_violation (column : string)
| invalid_bigint (text : string)
| bigint_out_of_range (text : string)
| length_of_non_array (kind : json_kind)
| elements_of_non_array (kind : json_kind)
| not_an_object
| external_error (msg : string).

Inductive outcome (A : Type) : Type :=
| Ok (a : A)
| Raise (e : sql_error).

Arguments Ok {A} a.
Arguments Raise {A} e.

Definition bind {A B : Type} (m : outcome A) (k : A -> outcome B) : outcome B :=
  match m with
  | Ok a => k a
  | Raise e => Raise e
  end.

Declare Scope outcome_scope.
Delimit Scope outcome_scope with outcome.
Notation "x <- m ;; k" := (bind m (fun x => k))
  (at level 100, m at next level, right associativity) : outcome_scope.
Open Scope outcome_scope.

Definition dq : string := String (ascii_of_nat 34) EmptyString.

(** [SQLERRM]: the primary message of a condition. *)
Definition sqlerrm (e : sql_error) : string :=
  match e with
  | undefined_column x => "column " ++ dq ++ x ++ dq ++ " does not exist"
  | ambiguous_column x => "column reference " ++ dq ++ x ++ dq ++ " is ambiguous"
  | invalid_regular_expression =>
      "invalid regular expression: invalid character range"
  | integer_out_of_range => "integer out of range"
  | not_null_violation c =>
      "null value in column " ++ dq ++ c ++ dq ++ " violates not-null constraint"
  | invalid_bigint t => "invalid input syntax for type bigint: " ++ dq ++ t ++ dq
  | bigint_out_of_range t => "value " ++ dq ++ t ++ dq ++ " is out of range for type bigint"
  | length_of_non_array json_scalar => "cannot get array length of a scalar"
  | length_of_non_array json_object => "cannot get array length of a non-array"
  | elements_of_non_array json_scalar => "cannot extract elements from a scalar"
  | elements_of_non_array json_object => "cannot extract elements from an object"
  | not_an_object => "argument of jsonb_to_recordset must be an array of objects"
  | external_error msg => msg
  end.

(** ** Name resolution inside SQL statements

    A PL/pgSQL function body hands its SQL statements to the SQL parser.  An
    identifier in an expression of such a statement can name a column of a
    table of the statement's FROM list or a variable of the function.  When it
    names both, the setting [plpgsql.variable_conflict] decides; the functions
    of the script carry no [#variable_conflict] option, so the setting of the
    session applies (its default is [error]).  When it names neither, the
    statement fails with [undefined_column].  Resolution is done once per
    statement, before any row is looked at. *)
Inductive variable_conflict : Type :=
| conflict_error
| use_variable
| use_column.

Inductive binding : Type :=
| to_column
| to_variable.

Definition declared (x : string) (names : list string) : bool :=
  existsb (String.eqb x) names.

Definition resolve (vc : variable_conflict) (columns variables : list string)
    (x : string) : outcome binding :=
  match declared x columns, declared x variables with
  | true, false => Ok to_column
  | false, true => Ok to_variable
  | false, false => Raise (undefined_column x)
  | true, true =>
      match vc with
      | conflict_error => Raise (ambiguous_column x)
      | use_variable => Ok to_variable
      | use_column => Ok to_column
      end
  end.

(** ** Characters and texts *)

Definition code (c : ascii) : nat := nat_of_ascii c.

Definition is_upper (c : ascii) : bool := (65 <=? code c)%nat && (code c <=? 90)%nat.

Definition lower_char (c : ascii) : ascii :=
  if is_upper c then ascii_of_nat (code c + 32) else c.

Fixpoint lower (s : string) : string :=
  match s with
  | EmptyString => EmptyString
  | String c r => String (lower_char c) (lower r)
  end.

(** [s LIKE '%kw%'] for a keyword without wildcard characters. *)
Fixpoint contains (kw s : string) : bool :=
  prefix kw s ||
  match s with
  | EmptyString => false
  | String _ r => contains kw r
  end.

(** *** Bracket expressions

    The patterns of the script use three bracket expressions:
    [[^a-z0-9]], [[\w.-]] and [[^a-z0-9-/]].  A bracket body is read the way
    PostgreSQL's regular expression compiler reads it: a [-] is an ordinary
    character when it is the first or the last character of the body, and the
    range operator anywhere else; a range operator where an item has to start
    (right after a complete range, as in [a-c-e]) is the error
    [invalid character range]. *)
Inductive bracket_item : Type :=
| range (lo hi : nat)
| word_class.

Definition is_word (c : ascii) : bool :=
  let n := code c in
  ((48 <=? n)%nat && (n <=? 57)%nat) || ((65 <=? n)%nat && (n <=? 90)%nat)
  || ((97 <=? n)%nat && (n <=? 122)%nat) || (n =? 95)%nat.

Definition item_has (c : ascii) (i : bracket_item) : bool :=
  match i with
  | range lo hi => (lo <=? code c)%nat && (code c <=? hi)%nat
  | word_class => is_word c
  end.

Definition dash : ascii := "-"%char.
Definition backslash : ascii := ascii_of_nat 92.

(** [first] tells whether the item about to be read opens the body. *)
Fixpoint bracket_items (first : bool) (body : string) : outcome (list bracket_item) :=
  match body with
  | EmptyString => Ok []
  | String c rest =>
      if Ascii.eqb c dash then
        match rest with
        | EmptyString => Ok [range (code c) (code c)]
        | _ =>
            if first then
              items <- bracket_items false rest ;;
              Ok (range (code c) (code c) :: items)
            else Raise invalid_regular_expression
        end
      else if Ascii.eqb c backslash then
        match rest with
        | String "w" rest' =>
            items <- bracket_items false rest' ;;
            Ok (word_class :: items)
        | String d rest' =>
            items <- bracket_items false rest' ;;
            Ok (range (code d) (code d) :: items)
        | EmptyString => Raise invalid_regular_expression
        end
      else
        match rest with
        | String "-" (String hi rest') =>
            if (code c <=? code hi)%nat then
              items <- bracket_items false rest' ;;
              Ok (range (code c) (code hi) :: items)
            else Raise invalid_regular_expression
        | _ =>
            items <- bracket_items false rest ;;
            Ok (range (code c) (code c) :: items)
        end
  end.

(** The set of characters a bracket expression matches; [negated] is the
    leading [^]. *)
Definition bracket (negated : bool) (body : string) : outcome (ascii -> bool) :=
  items <- bracket_items true body ;;
  Ok (fun c => xorb negated (existsb (item_has c) items)).

(** [regexp_replace(s, '[...]+', '-', 'g')]: every maximal run of characters
    of the class becomes one [-]. *)
Fixpoint replace_runs (cls : ascii -> bool) (in_run : bool) (s : string) : string :=
  match s with
  | EmptyString => EmptyString
  | String c r =>
      if cls c then
        if in_run then replace_runs cls true r
        else String dash (replace_runs cls true r)
      else String c (replace_runs cls false r)
  end.

(** [regexp_replace(s, '[...]', '-', 'g')]: every character of the class
    becomes [-]. *)
Fixpoint replace_each (cls : ascii -> bool) (s : string) : string :=
  match s with
  | EmptyString => EmptyString
  | String c r => String (if cls c then dash else c) (replace_each cls r)
  end.

(** [regexp_split_to_array(s, '[...]+')]: the pieces between the maximal runs
    of the class, empty pieces at the ends included. *)
Fixpoint split_runs (cls : ascii -> bool) (piece : string) (in_run : bool)
    (s : string) : list string :=
  match s with
  | EmptyString => [piece]
  | String c r =>
      if cls c then
        if in_run then split_runs cls piece true r
        else piece :: split_runs cls EmptyString true r
      else split_runs cls (piece ++ String c EmptyString) false r
  end.

(** The longest prefix of [s] inside the class, and what follows it. *)
Fixpoint span (cls : ascii -> bool) (s : string) : string * string :=
  match s with
  | EmptyString => (EmptyString, EmptyString)
  | String c r =>
      if cls c then let (a, b) := span cls r in (String c a, b)
      else (EmptyString, s)
  end.

Fixpoint strip_prefix (p s : string) : option string :=
  match p, s with
  | EmptyString, _ => Some s
  | String a p', String b s' => if Ascii.eqb a b then strip_prefix p' s' else None
  | String _ _, EmptyString => None
  end.

(** [regexp_replace(s, '\.git$', '')]. *)
Fixpoint strip_git_suffix (s : string) : string :=
  match s with
  | EmptyString => EmptyString
  | String c r => if String.eqb s ".git" then EmptyString else String c (strip_git_suffix r)
  end.

(** ** [generate_server_id] *)

(** A match of [github\.com[/:]([\w.-]+)/([\w.-]+)] that starts at the head
    of [s]: the two captured groups.  Both groups are greedy and [/] is
    outside their class, so the owner is the whole run before the [/]. *)
Definition github_match_here (cls : ascii -> bool) (s : string)
    : option (string * string) :=
  match strip_prefix "github.com" s with
  | Some (String sep r) =>
      if Ascii.eqb sep "/" || Ascii.eqb sep ":" then
        let (owner, r1) := span cls r in
        match owner, r1 with
        | String _ _, String "/" r2 =>
            let (repo, _) := span cls r2 in
            match repo with
            | EmptyString => None
            | String _ _ => Some (owner, repo)
            end
        | _, _ => None
        end
      else None
  | _ => None
  end.

(** [regexp_matches] without the [g] flag: the leftmost match, if any. *)
Fixpoint github_match (cls : ascii -> bool) (s : string) : option (string * string) :=
  match github_match_here cls s with
  | Some m => Some m
  | None =>
      match s with
      | EmptyString => None
      | String _ r => github_match cls r
      end
  end.

Definition regexp_matches_github (url : string) : outcome (option (string * string)) :=
  cls <- bracket false (String backslash "w.-") ;;
  Ok (github_match cls url).

(** The function of lines 79-105.  [None] is SQL NULL.  In the branch of a
    matching URL the last pattern is [[^a-z0-9-/]], whose [-] stands between
    the complete range [0-9] and [/]: compiling it raises.  In the fallback
    the replacement runs on the name as given and [lower] is applied to its
    result. *)
Definition generate_server_id (name github_url : option string)
    : outcome (option string) :=
  parts <- match github_url with
           | Some url => regexp_matches_github url
           | None => Ok None
           end ;;
  match parts with
  | Some (github_owner, github_repo) =>
      let github_repo := strip_git_suffix github_repo in
      let server_id := lower (github_owner ++ "/" ++ github_repo) in
      cls <- bracket true "a-z0-9-/" ;;
      Ok (Some (replace_each cls server_id))
  | None =>
      match name with
      | Some name =>
          cls <- bracket true "a-z0-9" ;;
          Ok (Some (lower (replace_runs cls false name)))
      | None => Ok None
      end
  end.

(** ** SQL values and three-valued conditions *)

Inductive sqlval : Type :=
| null
| text (s : string)
| text_array (l : list string).

Definition opt_text (o : option string) : sqlval :=
  match o with
  | Some s => text s
  | None => null
  end.

(** The values a statement can see: the columns of the row at hand and the
    variables of the function, by name. *)
Definition frame : Type := list (string * sqlval).

Fixpoint lookup (x : string) (f : frame) : sqlval :=
  match f with
  | [] => null
  | (y, v) :: f' => if String.eqb x y then v else lookup x f'
  end.

Definition operand (b : binding) (row variables : frame) (x : string) : sqlval :=
  match b with
  | to_column => lookup x row
  | to_variable => lookup x variables
  end.

(** Conditions are [Some true], [Some false] or unknown ([None]); [IF] and
    [WHERE] act on [Some true] only. *)
Definition holds (c : option bool) : bool :=
  match c with
  | Some true => true
  | _ => false
  end.

Definition sql_or (a b : option bool) : option bool :=
  match a, b with
  | Some true, _ => Some true
  | _, Some true => Some true
  | Some false, Some false => Some false
  | _, _ => None
  end.

Definition sql_and (a b : option bool) : option bool :=
  match a, b with
  | Some false, _ => Some false
  | _, Some false => Some false
  | Some true, Some true => Some true
  | _, _ => None
  end.

Definition sql_eq (a b : sqlval) : option bool :=
  match a, b with
  | text s, text t => Some (String.eqb s t)
  | _, _ => None
  end.

Definition like (s : option string) (kw : string) : option bool :=
  option_map (contains kw) s.

(** ** [determine_category] (lines 151-175) *)

Definition determine_category (name description : option string) : string :=
  let lc_name := option_map lower name in
  let lc_desc := Some (lower (match description with Some d => d | None => EmptyString end)) in
  if holds (sql_or (sql_or (like lc_name "auth") (like lc_desc "auth")) (like lc_desc "login"))
  then "auth"
  else if holds (sql_or (sql_or (like lc_desc "database") (like lc_desc "storage"))
                        (like lc_name "db"))
  then "database"
  else if holds (sql_or (sql_or (like lc_desc "ai") (like lc_desc "llm"))
                        (like lc_desc "language model"))
  then "ai"
  else if holds (sql_or (like lc_desc "file") (like lc_desc "document"))
  then "files"
  else if holds (sql_or (like lc_desc "web") (like lc_desc "http"))
  then "web"
  else "other".

(** ** [extract_tags] (lines 108-148) *)

Definition common_words : list string :=
  ["the"; "and"; "for"; "with"; "that"; "this"; "has"; "are"; "from"].

(** The parameters and the declared variables of the function. *)
Definition extract_tags_variables : list string :=
  ["name"; "description"; "all_words"; "name_parts"; "desc_parts";
   "common_words"; "tags"].

Definition mem (w : string) (l : list string) : bool := existsb (String.eqb w) l.

(** The rows of a [SELECT DISTINCT], each value once. *)
Fixpoint distinct (seen l : list string) : list string :=
  match l with
  | [] => []
  | w :: l' => if mem w seen then distinct seen l' else w :: distinct (w :: seen) l'
  end.

(** The filter of lines 134-139 is
    [SELECT DISTINCT unnest(all_words) AS word WHERE length(unnest) > 2
     AND unnest NOT IN (SELECT unnest(common_words))].
    The sub-select has no FROM clause, so its WHERE clause sees no column at
    all, and [unnest] there is an identifier, not a call: it is resolved
    against the empty column list and the variables of the function.  The
    condition does not mention the unnested word, so it is the same for every
    word. *)
Definition extract_tags (vc : variable_conflict) (name description : option string)
    : outcome (option (list string)) :=
  cls <- bracket true "a-z0-9" ;;
  let name_parts :=
    match name with
    | Some n => split_runs cls EmptyString false (lower n)
    | None => []
    end in
  let desc_parts :=
    match description with
    | Some d => split_runs cls EmptyString false (lower d)
    | None => []
    end in
  let all_words := (name_parts ++ desc_parts)%list in
  let variables : frame :=
    [("name", opt_text name); ("description", opt_text description);
     ("all_words", text_array all_words); ("name_parts", text_array name_parts);
     ("desc_parts", text_array desc_parts);
     ("common_words", text_array common_words); ("tags", null)] in
  b1 <- resolve vc [] extract_tags_variables "unnest" ;;
  b2 <- resolve vc [] extract_tags_variables "unnest" ;;
  let long_enough :=
    match operand b1 [] variables "unnest" with
    | text w => Some (2 <? String.length w)%nat
    | _ => None
    end in
  let uncommon :=
    match operand b2 [] variables "unnest" with
    | text w => Some (negb (mem w common_words))
    | _ => None
    end in
  let words := if holds (sql_and long_enough uncommon) then distinct [] all_words else [] in
  let tags := match words with [] => None | _ :: _ => Some words end in
  Ok (match tags with
      | Some l => if (10 <? List.length l)%nat then Some (firstn 10 l) else Some l
      | None => None
      end).

(** ** Integers

    The counters are [integer] variables: an addition that leaves the 32-bit
    range raises instead of wrapping. *)
Definition int4_max : Z := 2147483647.

Definition int4_add (a b : Z) : outcome Z :=
  if (a + b <=? int4_max)%Z && (- int4_max - 1 <=? a + b)%Z then Ok (a + b)%Z
  else Raise integer_out_of_range.

(** The input conversion of [bigint], as PostgreSQL reads a number from
    version 16 on: blanks, an optional sign, then decimal digits, or [0x],
    [0o] or [0b] and digits of that base, then blanks.  Single underscores
    may stand between digits.  A value that grows out of range while it is
    read is reported as such at once; otherwise the text is checked to its
    end before the range is. *)
Definition int8_max : Z := 9223372036854775807.

(** The blanks the conversion skips before and after the number. *)
Definition blank (c : ascii) : bool :=
  (code c =? 32)%nat || ((9 <=? code c)%nat && (code c <=? 13)%nat).

Fixpoint skip_blanks (s : string) : string :=
  match s with
  | EmptyString => EmptyString
  | String c r => if blank c then skip_blanks r else s
  end.

Definition digit_value (base : Z) (c : ascii) : option Z :=
  let n := code c in
  let value :=
    if (48 <=? n)%nat && (n <=? 57)%nat then Some (Z.of_nat (n - 48))
    else if (97 <=? n)%nat && (n <=? 102)%nat then Some (Z.of_nat (n - 87))
    else if (65 <=? n)%nat && (n <=? 70)%nat then Some (Z.of_nat (n - 55))
    else None in
  match value with
  | Some d => if (d <? base)%Z then Some d else None
  | None => None
  end.

Inductive scan : Type :=
| scan_done (read_any : bool) (value : Z) (rest : string)
| scan_invalid
| scan_out_of_range.

(** The digits of the number; [first] says that nothing has been read yet. *)
Fixpoint scan_digits (base : Z) (first : bool) (acc : Z) (s : string) : scan :=
  match s with
  | EmptyString => scan_done (negb first) acc s
  | String c r =>
      match digit_value base c with
      | Some d =>
          if (acc >? (int8_max + 1) / base)%Z then scan_out_of_range
          else scan_digits base false (base * acc + d)%Z r
      | None =>
          if Ascii.eqb c "_" then
            if first && (base =? 10)%Z then scan_invalid
            else
              match r with
              | String c' _ =>
                  match digit_value base c' with
                  | Some _ => scan_digits base false acc r
                  | None => scan_invalid
                  end
              | EmptyString => scan_invalid
              end
          else scan_done (negb first) acc s
      end
  end.

Definition bigint_in (t : string) : outcome Z :=
  let signed :=
    match skip_blanks t with
    | String "-" r => (true, r)
    | String "+" r => (false, r)
    | r => (false, r)
    end in
  let based :=
    match snd signed with
    | String "0" (String x r) =>
        if Ascii.eqb x "x" || Ascii.eqb x "X" then (16, r)
        else if Ascii.eqb x "o" || Ascii.eqb x "O" then (8, r)
        else if Ascii.eqb x "b" || Ascii.eqb x "B" then (2, r)
        else (10, snd signed)
    | r => (10, r)
    end%Z in
  match scan_digits (fst based) true 0 (snd based) with
  | scan_out_of_range => Raise (bigint_out_of_range t)
  | scan_invalid => Raise (invalid_bigint t)
  | scan_done read_any value rest =>
      if negb read_any then Raise (invalid_bigint t)
      else
        match skip_blanks rest with
        | String _ _ => Raise (invalid_bigint t)
        | EmptyString =>
            if fst signed then
              if (value >? int8_max + 1)%Z then Raise (bigint_out_of_range t)
              else Ok (- value)%Z
            else
              if (value >? int8_max)%Z then Raise (bigint_out_of_range t)
              else Ok value
        end
  end.

Definition bigint_cast (t : option string) : outcome (option Z) :=
  match t with
  | Some t => z <- bigint_in t ;; Ok (Some z)
  | None => Ok None
  end.

(** ** Data *)

(** One element of [install_instructions], as [jsonb_to_recordset] sees it:
    an object gives its three texts, anything else is refused. *)
Inductive install_item : Type :=
| item_object (platform icon_url install_command : option string)
| item_not_object.

(** The value of [server->'install_instructions']: absent (SQL NULL), a JSON
    value that is not an array (an object, or a scalar such as the JSON
    [null]), or an array. *)
Inductive install_field : Type :=
| install_absent
| install_not_array (kind : json_kind)
| install_array (items : list install_item).

(** A source entry: the keys of one element of [servers] that the procedure
    reads, each with the text [->>] gives for it. *)
Module Entry.
Record t : Type := make {
  name : option string;
  short_description : option string;
  source_code_url : option string;
  ai_generated_description : option string;
  endpoints : option string;
  examples : option string;
  package_registry : option string;
  package_name : option string;
  package_download_count : option string;
  github_stars : option string;
  external_url : option string;
  install_instructions : install_field
}.
End Entry.

(** The object built at lines 229-239; [methods], [source] and [version] are
    constants. *)
Record documentation : Type := {
  doc_description : string;
  doc_endpoints : string;
  doc_examples : string;
  generated_at : Z
}.

(** Modelled from the spec: the declaration of table [servers] is not part of
    the script.  The columns are the ones of the data model's CatalogRecord,
    under the names the script uses; the identifier is the key and is never
    NULL, the optional fields can be. *)
Module Server.
Record row : Type := make {
  id : string;
  name : option string;
  description : option string;
  category : string;
  tags : option (list string);
  package_registry : option string;
  package_name : option string;
  package_download_count : option Z;
  github_url : option string;
  github_stars : option Z;
  external_url : option string;
  api_documentation : documentation;
  created_at : Z;
  updated_at : Z
}.

Definition present {A : Type} (o : option A) : bool :=
  match o with
  | Some _ => true
  | None => false
  end.

(** [r IS NOT NULL] for a row value: every column is non-null. *)
Definition is_not_null (r : row) : bool :=
  present (name r) && present (description r) && present (tags r)
  && present (package_registry r) && present (package_name r)
  && present (package_download_count r) && present (github_url r)
  && present (github_stars r) && present (external_url r).

Definition columns : list string :=
  ["id"; "name"; "description"; "category"; "tags"; "package_registry";
   "package_name"; "package_download_count"; "github_url"; "github_stars";
   "external_url"; "api_documentation"; "created_at"; "updated_at"].

(** The column of a row that the conditions of the script compare. *)
Definition frame_of (r : row) : frame := [("id", text (id r))].
End Server.

(** Modelled from the spec: the declaration of table
    [server_install_instructions] is not part of the script.  The columns are
    the ones of the data model's InstallInstruction, under the names of the
    INSERT statements. *)
Module Instruction.
Record row : Type := make {
  server_id : option string;
  platform : option string;
  icon_url : option string;
  install_command : option string;
  sort_order : Z
}.

Definition columns : list string :=
  ["server_id"; "platform"; "icon_url"; "install_command"; "sort_order"].

(** The columns of a row that the conditions of the script compare. *)
Definition frame_of (r : row) : frame :=
  [("server_id", opt_text (server_id r)); ("platform", opt_text (platform r));
   ("icon_url", opt_text (icon_url r));
   ("install_command", opt_text (install_command r))].
End Instruction.

Record database : Type := {
  servers : list Server.row;
  server_install_instructions : list Instruction.row
}.

(** The variables declared at lines 180-198. *)
Definition sync_variables : list string :=
  ["server_count"; "added_count"; "updated_count"; "skipped_count";
   "error_count"; "error_messages"; "api_url"; "next_url"; "response";
   "server"; "server_id"; "server_data"; "api_documentation";
   "existing_server"; "install_record"; "package_registry"; "package_name";
   "update_result"; "insert_result"].

(** ** The install instructions of one record (lines 309-398) *)

(** The condition [server_id = server_id] of lines 311 and 332, in a
    statement whose FROM list is [server_install_instructions]: each of the
    two operands is resolved on its own, against the columns of the table and
    the variables of the procedure.  Both are the same identifier, so both
    resolve the same way. *)
Definition same_server (vc : variable_conflict)
    : outcome (option string -> Instruction.row -> bool) :=
  left_operand <- resolve vc Instruction.columns sync_variables "server_id" ;;
  right_operand <- resolve vc Instruction.columns sync_variables "server_id" ;;
  Ok (fun server_id r =>
        let variables : frame := [("server_id", opt_text server_id)] in
        holds (sql_eq
                 (operand left_operand (Instruction.frame_of r) variables "server_id")
                 (operand right_operand (Instruction.frame_of r) variables "server_id"))).

(** [DELETE FROM server_install_instructions WHERE server_id = server_id]. *)
Definition delete_instructions (vc : variable_conflict) (server_id : option string)
    (table : list Instruction.row) : outcome (list Instruction.row) :=
  matches <- same_server vc ;;
  Ok (filter (fun r => negb (matches server_id r)) table).

(** [SELECT COALESCE(MAX(sort_order), -1) + 1 FROM server_install_instructions
    WHERE server_id = server_id]. *)
Definition next_sort_order (vc : variable_conflict) (server_id : option string)
    (table : list Instruction.row) : outcome Z :=
  matches <- same_server vc ;;
  let highest :=
    fold_left (fun m r => if matches server_id r then Z.max m (Instruction.sort_order r) else m)
              table (-1)%Z in
  int4_add highest 1.

(** [jsonb_to_recordset(...) AS x(platform text, icon_url text,
    install_command text)]. *)
Fixpoint jsonb_to_recordset (items : list install_item)
    : outcome (list (option string * option string * option string)) :=
  match items with
  | [] => Ok []
  | item_object p i c :: rest =>
      records <- jsonb_to_recordset rest ;;
      Ok ((p, i, c) :: records)
  | item_not_object :: _ => Raise not_an_object
  end.

(** The loop of lines 318-334: one INSERT per supplied instruction. *)
Fixpoint insert_supplied (vc : variable_conflict) (server_id : option string)
    (records : list (option string * option string * option string))
    (table : list Instruction.row) : outcome (list Instruction.row) :=
  match records with
  | [] => Ok table
  | (p, i, c) :: rest =>
      order <- next_sort_order vc server_id table ;;
      insert_supplied vc server_id rest
        (table ++ [Instruction.make server_id p i c order])%list
  end.

(** The default rows of lines 341-396. *)
Definition default_instructions (server_id : option string)
    (package_registry package_name : string) : list Instruction.row :=
  if String.eqb package_registry "npm" then
    [Instruction.make server_id (Some "Node.js")
       (Some "https://nodejs.org/static/images/logos/nodejs-new-pantone-black.svg")
       (Some ("npm install " ++ package_name)) 0;
     Instruction.make server_id (Some "Yarn")
       (Some "https://yarnpkg.com/favicon.svg")
       (Some ("yarn add " ++ package_name)) 1]
  else if String.eqb package_registry "pip" || String.eqb package_registry "pypi" then
    [Instruction.make server_id (Some "Python")
       (Some "https://www.python.org/static/favicon.ico")
       (Some ("pip install " ++ package_name)) 0]
  else if String.eqb package_registry "cargo" then
    [Instruction.make server_id (Some "Rust")
       (Some "https://www.rust-lang.org/favicon.ico")
       (Some ("cargo add " ++ package_name)) 0]
  else if String.eqb package_registry "go" then
    [Instruction.make server_id (Some "Go")
       (Some "https://go.dev/favicon.ico")
       (Some ("go get " ++ package_name)) 0]
  else [].

(** Lines 313-398.  [jsonb_array_length] is strict, so an absent key gives an
    unknown condition and the defaults; a value that is not an array makes it
    raise. *)
Definition insert_instructions (vc : variable_conflict) (server_id : option string)
    (server : Entry.t) (table : list Instruction.row) : outcome (list Instruction.row) :=
  supplied <- match Entry.install_instructions server with
              | install_absent => Ok []
              | install_not_array kind => Raise (length_of_non_array kind)
              | install_array items => Ok items
              end ;;
  match supplied with
  | _ :: _ =>
      records <- jsonb_to_recordset supplied ;;
      insert_supplied vc server_id records table
  | [] =>
      match Entry.package_registry server, Entry.package_name server with
      | Some package_registry, Some package_name =>
          Ok (table ++ default_instructions server_id package_registry package_name)%list
      | _, _ => Ok table
      end
  end.

(** The operation the specification calls [sync_instructions]: the DELETE of
    lines 309-311 followed by the inserts of lines 313-398. *)
Definition sync_instructions (vc : variable_conflict) (server_id : option string)
    (server : Entry.t) (table : list Instruction.row) : outcome (list Instruction.row) :=
  table <- delete_instructions vc server_id table ;;
  insert_instructions vc server_id server table.

(** ** The state of a run *)

(** The counters and the message array of lines 180-185. *)
Record counters : Type := {
  server_count : Z;
  added_count : Z;
  updated_count : Z;
  skipped_count : Z;
  error_count : Z;
  error_messages : list string
}.

(** What [RAISE NOTICE] sends to the client. *)
Inductive notice : Type :=
| starting
| processed (total added updated skipped : Z)
| error_processing (name : option string) (e : sql_error)
| error_fetching (e : sql_error)
| sync_completed
| totals (total added updated skipped errors : Z)
| sync_failed (e : sql_error).

(** [requests] lists the URLs handed to [http], oldest first.  Notices and
    requests have left the database session, so no rollback takes them
    back. *)
Record state : Type := {
  vars : counters;
  db : database;
  notices : list notice;
  requests : list string
}.

Definition with_vars (f : counters -> counters) (s : state) : state :=
  {| vars := f (vars s); db := db s; notices := notices s; requests := requests s |}.

Definition with_db (d : database) (s : state) : state :=
  {| vars := vars s; db := d; notices := notices s; requests := requests s |}.

Definition with_notice (n : notice) (s : state) : state :=
  {| vars := vars s; db := db s; notices := (notices s ++ [n])%list;
     requests := requests s |}.

Definition with_request (url : string) (s : state) : state :=
  {| vars := vars s; db := db s; notices := notices s;
     requests := (requests s ++ [url])%list |}.

Definition set_server_count (z : Z) (c : counters) : counters :=
  {| server_count := z; added_count := added_count c; updated_count := updated_count c;
     skipped_count := skipped_count c; error_count := error_count c;
     error_messages := error_messages c |}.

Definition set_added_count (z : Z) (c : counters) : counters :=
  {| server_count := server_count c; added_count := z; updated_count := updated_count c;
     skipped_count := skipped_count c; error_count := error_count c;
     error_messages := error_messages c |}.

Definition set_updated_count (z : Z) (c : counters) : counters :=
  {| server_count := server_count c; added_count := added_count c; updated_count := z;
     skipped_count := skipped_count c; error_count := error_count c;
     error_messages := error_messages c |}.

Definition set_skipped_count (z : Z) (c : counters) : counters :=
  {| server_count := server_count c; added_count := added_count c;
     updated_count := updated_count c; skipped_count := z; error_count := error_count c;
     error_messages := error_messages c |}.

Definition set_error_count (z : Z) (c : counters) : counters :=
  {| server_count := server_count c; added_count := added_count c;
     updated_count := updated_count c; skipped_count := skipped_count c;
     error_count := z; error_messages := error_messages c |}.

(** [error_messages := array_append(error_messages, m)].  The array is a
    list without bound: the size limit of a PostgreSQL array, and memory,
    are not modelled. *)
Definition array_append (m : string) (c : counters) : counters :=
  {| server_count := server_count c; added_count := added_count c;
     updated_count := updated_count c; skipped_count := skipped_count c;
     error_count := error_count c; error_messages := (error_messages c ++ [m])%list |}.

(** A statement sequence either runs to its end or raises; in both cases the
    state it reached is kept, because an exception leaves the variables as
    they are.  The handler that catches the exception puts the database back
    to what it was when its block was entered. *)
Inductive exec (A : Type) : Type :=
| finished (a : A) (s : state)
| raised (e : sql_error) (s : state).

Arguments finished {A} a s.
Arguments raised {A} e s.

Definition M (A : Type) : Type := state -> exec A.

Definition ret {A : Type} (a : A) : M A := fun s => finished a s.

Definition andthen {A B : Type} (m : M A) (k : A -> M B) : M B :=
  fun s =>
    match m s with
    | finished a s' => k a s'
    | raised e s' => raised e s'
    end.

Definition lift {A : Type} (o : outcome A) : M A :=
  fun s =>
    match o with
    | Ok a => finished a s
    | Raise e => raised e s
    end.

Definition read : M state := fun s => finished s s.

Definition update (f : state -> state) : M unit := fun s => finished tt (f s).

Declare Scope exec_scope.
Delimit Scope exec_scope with exec.
Notation "x <-- m ;; k" := (andthen m (fun x => k))
  (at level 100, m at next level, right associativity) : exec_scope.
Notation "m ;;; k" := (andthen m (fun _ => k))
  (at level 100, right associativity) : exec_scope.
Open Scope exec_scope.

(** [v := v + 1] on a counter. *)
Definition increment (get : counters -> Z) (set : Z -> counters -> counters) : M unit :=
  s <-- read ;;
  z <-- lift (int4_add (get (vars s)) 1) ;;
  update (with_vars (set z)).

Fixpoint for_each {A : Type} (body : A -> M unit) (l : list A) : M unit :=
  match l with
  | [] => ret tt
  | a :: l' => body a ;;; for_each body l'
  end.

(** ** The source *)

(** The value of [response->'servers']. *)
Inductive servers_field : Type :=
| servers_absent
| servers_not_array (kind : json_kind)
| servers_array (entries : list Entry.t).

Record response : Type := {
  servers_of : servers_field;
  next : option string
}.

(** What the call of [http] at lines 206-213 does for a URL: it raises, or it
    yields the parsed body. *)
Inductive fetch_result : Type :=
| fetch_raises (e : sql_error)
| fetched (r : response).

(** The result object of lines 441-451 and 457-461. *)
Record stats : Type := {
  total : Z;
  added : Z;
  updated : Z;
  skipped : Z;
  errors : list string
}.

Record result : Type := {
  success : bool;
  message : string;
  stats_of : option stats;
  error : option string
}.

Definition api_url : string :=
  "https://api.pulsemcp.com/v0beta/servers?count_per_page=100".

(** ** The procedure [sync_mcp_servers_from_pulsemcp] (lines 178-463) *)

(** The condition [id = server_id] of lines 244 and 296, in a statement on
    [servers]. *)
Definition is_server (vc : variable_conflict)
    : outcome (option string -> Server.row -> bool) :=
  left_operand <- resolve vc Server.columns sync_variables "id" ;;
  right_operand <- resolve vc Server.columns sync_variables "server_id" ;;
  Ok (fun server_id r =>
        let variables : frame := [("server_id", opt_text server_id)] in
        holds (sql_eq (operand left_operand (Server.frame_of r) variables "id")
                      (operand right_operand (Server.frame_of r) variables "server_id"))).

Definition or_empty (o : option string) : string :=
  match o with
  | Some s => s
  | None => EmptyString
  end.

Definition coalesce (a b : option string) : option string :=
  match a with
  | Some _ => a
  | None => b
  end.

(** The object [server_data] of lines 247-261, with the texts of the two
    counts still to be converted. *)
Record server_data : Type := {
  data_name : option string;
  data_description : option string;
  data_category : string;
  data_tags : option (list string);
  data_package_registry : option string;
  data_package_name : option string;
  data_package_download_count : option string;
  data_github_url : option string;
  data_github_stars : option string;
  data_external_url : option string;
  data_updated_at : Z;
  data_api_documentation : documentation
}.

(** The object [api_documentation] of lines 229-239. *)
Definition build_documentation (now : Z) (server : Entry.t) : documentation :=
  {| doc_description :=
       or_empty (coalesce (Entry.ai_generated_description server)
                          (Entry.short_description server));
     doc_endpoints := or_empty (coalesce (Entry.endpoints server) (Some "[]"));
     doc_examples := or_empty (coalesce (Entry.examples server) (Some "[]"));
     generated_at := now |}.

(** The assignment of lines 247-261. *)
Definition build_server_data (now : Z) (server : Entry.t) (category : string)
    (tags : option (list string)) (api_documentation : documentation) : server_data :=
  {| data_name := Entry.name server;
     data_description := Entry.short_description server;
     data_category := category;
     data_tags := tags;
     data_package_registry := Entry.package_registry server;
     data_package_name := Entry.package_name server;
     data_package_download_count := Entry.package_download_count server;
     data_github_url := Entry.source_code_url server;
     data_github_stars := Entry.github_stars server;
     data_external_url := Entry.external_url server;
     data_updated_at := now;
     data_api_documentation := api_documentation |}.

(** The row the UPDATE of lines 282-297 leaves in place of [r]: [id] and
    [created_at] are not in its SET list. *)
Definition updated_row (data : server_data) (downloads stars : option Z) (now : Z)
    (r : Server.row) : Server.row :=
  Server.make (Server.id r) (data_name data) (data_description data)
    (data_category data) (data_tags data) (data_package_registry data)
    (data_package_name data) downloads (data_github_url data) stars
    (data_external_url data) (data_api_documentation data) (Server.created_at r) now.

(** The row the INSERT of lines 266-270 adds: [server_data] with [created_at]
    set to [now()]. *)
Definition inserted_row (id : string) (data : server_data) (downloads stars : option Z)
    (now : Z) : Server.row :=
  Server.make id (data_name data) (data_description data) (data_category data)
    (data_tags data) (data_package_registry data) (data_package_name data) downloads
    (data_github_url data) stars (data_external_url data)
    (data_api_documentation data) now (data_updated_at data).

(** The UPDATE statement on the table. *)
Definition update_server (vc : variable_conflict) (now : Z) (server_id : option string)
    (data : server_data) (table : list Server.row)
    : outcome (list Server.row * option Server.row) :=
  matches <- is_server vc ;;
  downloads <- bigint_cast (data_package_download_count data) ;;
  stars <- bigint_cast (data_github_stars data) ;;
  let table' :=
    map (fun r => if matches server_id r then updated_row data downloads stars now r else r)
        table in
  Ok (table', find (matches server_id) table').

(** The INSERT statement on the table. *)
Definition insert_server (now : Z) (server_id : option string) (data : server_data)
    (table : list Server.row) : outcome (list Server.row * Server.row) :=
  downloads <- bigint_cast (data_package_download_count data) ;;
  stars <- bigint_cast (data_github_stars data) ;;
  id <- match server_id with
        | Some id => Ok id
        | None => Raise (not_null_violation "id")
        end ;;
  let r := inserted_row id data downloads stars now in
  Ok ((table ++ [r])%list, r).

(** The text [format] builds at lines 411-412. *)
Definition processing_message (server : Entry.t) (e : sql_error) : string :=
  "Error processing server " ++ or_empty (Entry.name server) ++ ": " ++ sqlerrm e.

(** The text [format] builds at lines 429-430. *)
Definition fetching_message (e : sql_error) : string :=
  "Error fetching page: " ++ sqlerrm e.

Section Procedure.

(** The session's [plpgsql.variable_conflict], the value of [now()] (the
    start of the transaction, the same at every call) and the source behind
    [http]. *)
Variable vc : variable_conflict.
Variable now : Z.
Variable http : string -> fetch_result.

Definition set_servers (t : list Server.row) (s : state) : state :=
  with_db {| servers := t;
             server_install_instructions := server_install_instructions (db s) |} s.

Definition set_instructions (t : list Instruction.row) (s : state) : state :=
  with_db {| servers := servers (db s); server_install_instructions := t |} s.

(** Lines 263-307.  The result tells whether the block goes on ([true]) or
    leaves the iteration through [CONTINUE] ([false]).  The tests
    [insert_result IS NOT NULL] and [update_result IS NOT NULL] are tests on
    a row value. *)
Definition reconcile (server_id : option string) (data : server_data)
    (existing_server : option Server.row) : M bool :=
  match existing_server with
  | None =>
      s <-- read ;;
      ins <-- lift (insert_server now server_id data (servers (db s))) ;;
      let (table, insert_result) := ins in
      update (set_servers table) ;;;
      if Server.is_not_null insert_result then
        increment added_count set_added_count ;;; ret true
      else
        increment skipped_count set_skipped_count ;;;
        update (with_vars (array_append ("Failed to insert server " ++ or_empty server_id))) ;;;
        ret false
  | Some _ =>
      s <-- read ;;
      upd <-- lift (update_server vc now server_id data (servers (db s))) ;;
      let (table, update_result) := upd in
      update (set_servers table) ;;;
      if match update_result with
         | Some r => Server.is_not_null r
         | None => false
         end
      then
        increment updated_count set_updated_count ;;; ret true
      else
        increment skipped_count set_skipped_count ;;;
        update (with_vars (array_append ("Failed to update server " ++ or_empty server_id))) ;;;
        ret false
  end.

(** The second half of the inner block, lines 263-404: the record is
    written from [server_data], then its instructions, then the progress
    notice. *)
Definition store_server (server : Entry.t) (server_id : option string)
    (data : server_data) (existing_server : option Server.row) : M unit :=
  proceed <-- reconcile server_id data existing_server ;;
  if proceed : bool then
    s <-- read ;;
    table <-- lift (sync_instructions vc server_id server
                      (server_install_instructions (db s))) ;;
    update (set_instructions table) ;;;
    s <-- read ;;
    if (server_count (vars s) mod 10 =? 0)%Z then
      update (with_notice (processed (server_count (vars s)) (added_count (vars s))
                             (updated_count (vars s)) (skipped_count (vars s))))
    else ret tt
  else ret tt.

(** The statements of the inner block, lines 222-404. *)
Definition server_block (server : Entry.t) : M unit :=
  server_id <-- lift (generate_server_id (Entry.name server) (Entry.source_code_url server)) ;;
  let api_documentation := build_documentation now server in
  matches <-- lift (is_server vc) ;;
  s <-- read ;;
  let existing_server := find (matches server_id) (servers (db s)) in
  let category := determine_category (Entry.name server) (Entry.short_description server) in
  tags <-- lift (extract_tags vc (Entry.name server) (Entry.short_description server)) ;;
  let data := build_server_data now server category tags api_documentation in
  store_server server server_id data existing_server.

(** The handler of lines 406-414. *)
Definition server_handler (server : Entry.t) (e : sql_error) : M unit :=
  increment skipped_count set_skipped_count ;;;
  increment error_count set_error_count ;;;
  update (with_vars (array_append (processing_message server e))) ;;;
  update (with_notice (error_processing (Entry.name server) e)).

(** One iteration of the FOR loop, lines 218-415: the count, then the inner
    block with its handler. *)
Definition process_server (server : Entry.t) : M unit :=
  increment server_count set_server_count ;;;
  fun s =>
    match server_block server s with
    | finished _ s' => finished tt s'
    | raised e s' => server_handler server e (with_db (db s) s')
    end.

(** The statements of the page block, lines 206-424; the value is the new
    [next_url]. *)
Definition page_body (next_url : string) : M (option string) :=
  r <-- lift (match http next_url with
              | fetch_raises e => Raise e
              | fetched r => Ok r
              end) ;;
  entries <-- lift (match servers_of r with
                    | servers_absent => Ok []
                    | servers_not_array kind => Raise (elements_of_non_array kind)
                    | servers_array entries => Ok entries
                    end) ;;
  for_each process_server entries ;;;
  ret (next r).

(** The handler of lines 426-432. *)
Definition page_handler (e : sql_error) : M (option string) :=
  increment error_count set_error_count ;;;
  update (with_vars (array_append (fetching_message e))) ;;;
  update (with_notice (error_fetching e)) ;;;
  ret None.

(** One iteration of the WHILE loop, lines 204-433. *)
Definition page_block (next_url : string) : M (option string) :=
  fun s =>
    match page_body next_url (with_request next_url s) with
    | finished next_url' s' => finished next_url' s'
    | raised e s' => page_handler e (with_db (db s) s')
    end.

(** The WHILE loop of lines 203-434.  Nothing bounds the number of pages a
    source can chain, so the loop is given a number of iterations it may
    use; [None] means that they did not suffice. *)
Fixpoint pages (fuel : nat) (next_url : option string) (s : state) : option (exec unit) :=
  match next_url with
  | None => Some (finished tt s)
  | Some url =>
      match fuel with
      | O => None
      | S fuel' =>
          match page_block url s with
          | finished next_url' s' => pages fuel' next_url' s'
          | raised e s' => Some (raised e s')
          end
      end
  end.

Definition initial (d : database) : state :=
  {| vars := {| server_count := 0; added_count := 0; updated_count := 0;
                skipped_count := 0; error_count := 0; error_messages := [] |};
     db := d; notices := [starting]; requests := [] |}.

(** The object returned at lines 441-451. *)
Definition completed (c : counters) : result :=
  {| success := true;
     message := "MCP servers sync completed";
     stats_of := Some {| total := server_count c; added := added_count c;
                         updated := updated_count c; skipped := skipped_count c;
                         errors := error_messages c |};
     error := None |}.

(** The object returned by the handler of lines 453-461. *)
Definition failed (e : sql_error) : result :=
  {| success := false;
     message := "Sync process failed: " ++ sqlerrm e;
     stats_of := None;
     error := Some (sqlerrm e) |}.

(** The end of a run from the state the loop left: lines 436-461. *)
Definition conclude (d : database) (r : exec unit) : result * state :=
  match r with
  | finished _ s =>
      (completed (vars s),
       with_notice (totals (server_count (vars s)) (added_count (vars s))
                      (updated_count (vars s)) (skipped_count (vars s))
                      (error_count (vars s)))
         (with_notice sync_completed s))
  | raised e s => (failed e, with_notice (sync_failed e) (with_db d s))
  end.

(** The whole procedure on database [d]. *)
Definition sync_mcp_servers_from_pulsemcp (fuel : nat) (d : database)
    : option (result * state) :=
  option_map (conclude d) (pages fuel (Some api_url) (initial d)).

End Procedure.


(** ** Notions used in the statements *)

(** The fallback identifier as the specification words it: the lowercase of
    the name, every maximal run of non-alphanumeric characters collapsed to
    one [-].  It is compared below with what [generate_server_id] computes. *)
Definition alphanumeric (c : ascii) : bool :=
  ((97 <=? code c)%nat && (code c <=? 122)%nat) || ((48 <=? code c)%nat && (code c <=? 57)%nat).

Definition fallback_by_spec (name : string) : string :=
  replace_runs (fun c => negb (alphanumeric c)) false (lower name).

Fixpoint no_upper (s : string) : bool :=
  match s with
  | EmptyString => true
  | String c r => negb (is_upper c) && no_upper r
  end.

(** The keyword tests of the classifier on the lowercased fields. *)
Definition name_has (kw : string) (name : option string) : bool :=
  match name with
  | Some n => contains kw (lower n)
  | None => false
  end.

Definition desc_has (kw : string) (description : option string) : bool :=
  contains kw (lower (or_empty description)).

(** A keyword rule: its category, the keywords it looks for in the name and
    those it looks for in the description. *)
Record rule : Type := {
  rule_category : string;
  name_keywords : list string;
  description_keywords : list string
}.

Definition rule_matches (r : rule) (name description : option string) : bool :=
  existsb (fun kw => name_has kw name) (name_keywords r)
  || existsb (fun kw => desc_has kw description) (description_keywords r).

(** The rules tried in order; the first that matches decides, and [other]
    is the answer when none does. *)
Fixpoint first_match (rules : list rule) (name description : option string) : string :=
  match rules with
  | [] => "other"
  | r :: rest =>
      if rule_matches r name description then rule_category r
      else first_match rest name description
  end.

(** The rules as the specification words them: name and description are
    scanned for every keyword, [db] in the name only. *)
Definition rules_by_spec : list rule :=
  [{| rule_category := "auth";
      name_keywords := ["auth"; "login"];
      description_keywords := ["auth"; "login"] |};
   {| rule_category := "database";
      name_keywords := ["database"; "storage"; "db"];
      description_keywords := ["database"; "storage"] |};
   {| rule_category := "ai";
      name_keywords := ["ai"; "llm"; "language model"];
      description_keywords := ["ai"; "llm"; "language model"] |};
   {| rule_category := "files";
      name_keywords := ["file"; "document"];
      description_keywords := ["file"; "document"] |};
   {| rule_category := "web";
      name_keywords := ["web"; "http"];
      description_keywords := ["web"; "http"] |}].

Definition category_by_spec (name description : option string) : string :=
  first_match rules_by_spec name description.

(** The same rules with each keyword in the field in which lines 156-172
    look it up: of the name only [auth] and [db] are asked. *)
Definition rules_by_field : list rule :=
  [{| rule_category := "auth";
      name_keywords := ["auth"];
      description_keywords := ["auth"; "login"] |};
   {| rule_category := "database";
      name_keywords := ["db"];
      description_keywords := ["database"; "storage"] |};
   {| rule_category := "ai";
      name_keywords := [];
      description_keywords := ["ai"; "llm"; "language model"] |};
   {| rule_category := "files";
      name_keywords := [];
      description_keywords := ["file"; "document"] |};
   {| rule_category := "web";
      name_keywords := [];
      description_keywords := ["web"; "http"] |}].

(** The keywords that are looked up in the description alone. *)
Definition description_only : list string :=
  ["login"; "database"; "storage"; "ai"; "llm"; "language model"; "file"; "document";
   "web"; "http"].

(** The rows of table [server_install_instructions] that belong to the
    record [id]. *)
Definition owned_by (id : string) (r : Instruction.row) : bool :=
  match Instruction.server_id r with
  | Some owner => String.eqb owner id
  | None => false
  end.

(** The instructions of a record as the specification words them: the
    supplied list verbatim, numbered from [k] on in the order of the list. *)
Fixpoint numbered (server_id : option string) (k : nat)
    (records : list (option string * option string * option string))
    : list Instruction.row :=
  match records with
  | [] => []
  | (p, i, c) :: rest =>
      Instruction.make server_id p i c (Z.of_nat k) :: numbered server_id (S k) rest
  end.

Definition supplied_record (item : install_item)
    : option string * option string * option string :=
  match item with
  | item_object p i c => (p, i, c)
  | item_not_object => (None, None, None)
  end.

(** The defaults as the specification lists them, by registry: for [npm] a
    Node.js command, then a Yarn alternative; one Python command for [pip]
    and for [pypi], one Rust command for [cargo], one Go command for [go];
    nothing for any other registry.  A platform is given by its label and by
    the command the package name is appended to. *)
Definition registry_defaults : list (string * list (string * string)) :=
  [("npm", [("Node.js", "npm install "); ("Yarn", "yarn add ")]);
   ("pip", [("Python", "pip install ")]);
   ("pypi", [("Python", "pip install ")]);
   ("cargo", [("Rust", "cargo add ")]);
   ("go", [("Go", "go get ")])].

(** The icon shown with each platform label. *)
Definition platform_icons : list (string * string) :=
  [("Node.js", "https://nodejs.org/static/images/logos/nodejs-new-pantone-black.svg");
   ("Yarn", "https://yarnpkg.com/favicon.svg");
   ("Python", "https://www.python.org/static/favicon.ico");
   ("Rust", "https://www.rust-lang.org/favicon.ico");
   ("Go", "https://go.dev/favicon.ico")].

Fixpoint assoc {A : Type} (key : string) (table : list (string * A)) : option A :=
  match table with
  | [] => None
  | (k, a) :: rest => if String.eqb k key then Some a else assoc key rest
  end.

Definition default_record (package : string) (p : string * string)
    : option string * option string * option string :=
  (Some (fst p), assoc (fst p) platform_icons, Some (snd p ++ package)).

(** The default rows of a record: the platforms of its registry in the order
    of the list, numbered by position. *)
Definition defaults_by_spec (id registry package : string) : list Instruction.row :=
  match assoc registry registry_defaults with
  | Some platforms => numbered (Some id) 0 (map (default_record package) platforms)
  | None => []
  end.

(** What the latest input asks for: the supplied list when there is one, the
    defaults of the registry when registry and package are known, nothing
    otherwise. *)
Definition instructions_by_spec (id : string) (server : Entry.t) : list Instruction.row :=
  match Entry.install_instructions server with
  | install_array (item :: items) =>
      numbered (Some id) 0 (map supplied_record (item :: items))
  | _ =>
      match Entry.package_registry server, Entry.package_name server with
      | Some registry, Some package => defaults_by_spec id registry package
      | _, _ => []
      end
  end.

(** The example of the specification: the entry "Demo Auth", and a table
    that holds one instruction of it and one of another record. *)
Definition demo_auth : Entry.t :=
  Entry.make (Some "Demo Auth") (Some "auth for apps")
    (Some "https://github.com/acme/demo-auth") None None None (Some "npm")
    (Some "demo-auth") None None None install_absent.

Definition other_row : Instruction.row :=
  Instruction.make (Some "acme/other") (Some "Go") (Some "https://go.dev/favicon.ico")
    (Some "go get other") 0.

Definition stale_row : Instruction.row :=
  Instruction.make (Some "acme/demo-auth") (Some "Python")
    (Some "https://www.python.org/static/favicon.ico") (Some "pip install demo-auth") 0.

(** The exception the inner block ends with for an entry. *)
Definition block_error (server : Entry.t) : sql_error :=
  match generate_server_id (Entry.name server) (Entry.source_code_url server) with
  | Raise e => e
  | Ok _ => undefined_column "unnest"
  end.

(** The state after an iteration whose block raised [e]: the entry is
    counted as seen, as skipped and as an error, one message and one notice
    are added, and the database is the one the iteration started from. *)
Definition after_skip (server : Entry.t) (e : sql_error) (s : state) : state :=
  {| vars :=
       {| server_count := server_count (vars s) + 1;
          added_count := added_count (vars s);
          updated_count := updated_count (vars s);
          skipped_count := skipped_count (vars s) + 1;
          error_count := error_count (vars s) + 1;
          error_messages := (error_messages (vars s) ++ [processing_message server e])%list |};
     db := db s;
     notices := (notices s ++ [error_processing (Entry.name server) e])%list;
     requests := requests s |}.

Definition after_entries (entries : list Entry.t) (s : state) : state :=
  fold_left (fun s server => after_skip server (block_error server) s) entries s.

(** The counters can take [k] more increments. *)
Definition room (k : Z) (s : state) : Prop :=
  (0 <= server_count (vars s) /\ server_count (vars s) + k <= int4_max)%Z
  /\ (0 <= skipped_count (vars s) /\ skipped_count (vars s) + k <= int4_max)%Z
  /\ (0 <= error_count (vars s) /\ error_count (vars s) + k <= int4_max)%Z.

(** Every entry seen is counted in exactly one of the three outcomes. *)
Definition accounted (s : state) : Prop :=
  server_count (vars s)
  = (added_count (vars s) + updated_count (vars s) + skipped_count (vars s))%Z.

(** From [s] to [s'] one entry has been counted, in exactly one of the
    counters added, updated and skipped; the other two are as they were. *)
Definition counted_once (s s' : state) : Prop :=
  (added_count (vars s') = added_count (vars s) + 1
   /\ updated_count (vars s') = updated_count (vars s)
   /\ skipped_count (vars s') = skipped_count (vars s))%Z
  \/ (added_count (vars s') = added_count (vars s)
      /\ updated_count (vars s') = updated_count (vars s) + 1
      /\ skipped_count (vars s') = skipped_count (vars s))%Z
  \/ (added_count (vars s') = added_count (vars s)
      /\ updated_count (vars s') = updated_count (vars s)
      /\ skipped_count (vars s') = skipped_count (vars s) + 1)%Z.

(** A finite page sequence behind [http]: the page at [url] holds the first
    list of entries and names the URL of the next page, the last page names
    none. *)
Fixpoint serves (http : string -> fetch_result) (url : string)
    (chain : list (list Entry.t * option string)) : Prop :=
  match chain with
  | [] => False
  | [(entries, next_url)] =>
      http url = fetched {| servers_of := servers_array entries; next := None |}
      /\ next_url = None
  | (entries, next_url) :: rest =>
      match next_url with
      | Some url' =>
          http url = fetched {| servers_of := servers_array entries; next := Some url' |}
          /\ serves http url' rest
      | None => False
      end
  end.

(** The URLs of the pages of a chain that starts at [url], and its
    entries. *)
Fixpoint urls (url : string) (chain : list (list Entry.t * option string)) : list string :=
  match chain with
  | [] => []
  | (_, next_url) :: rest =>
      url :: match next_url with
             | Some url' => urls url' rest
             | None => []
             end
  end.

Definition entries_of (chain : list (list Entry.t * option string)) : list Entry.t :=
  flat_map fst chain.

(** Two sources for the examples: one that is down, and one that serves a
    single page of three entries, the second of which carries a JSON [null]
    where the list of install instructions should be. *)
Definition source_down (_ : string) : fetch_result :=
  fetch_raises (external_error "could not connect to server").

Definition plain_entry (name description package : string) : Entry.t :=
  Entry.make (Some name) (Some description) (Some "https://example.org/source") None
    None None (Some "npm") (Some package) (Some "12") (Some "3")
    (Some "https://example.org") install_absent.

Definition broken_entry : Entry.t :=
  Entry.make (Some "Beta") (Some "second tool") (Some "https://example.org/source") None
    None None (Some "npm") (Some "beta") (Some "12") (Some "3")
    (Some "https://example.org") (install_not_array json_scalar).

Definition one_page (_ : string) : fetch_result :=
  fetched {| servers_of :=
               servers_array [plain_entry "Alpha" "first tool" "alpha"; broken_entry;
                              plain_entry "Gamma" "third tool" "gamma"];
             next := None |}.

Definition two_pages (url : string) : fetch_result :=
  if String.eqb url api_url then
    fetched {| servers_of := servers_array [plain_entry "Alpha" "first tool" "alpha"];
               next := Some "https://api.pulsemcp.com/v0beta/servers?page=2" |}
  else
    fetched {| servers_of := servers_array [plain_entry "Gamma" "third tool" "gamma"];
               next := None |}.

Definition empty_database : database :=
  {| servers := []; server_install_instructions := [] |}.

(** A stored record for the examples, created at time 5. *)
Definition stored_row : Server.row :=
  Server.make "demo-auth" (Some "Old name") (Some "old text") "other" None None None None
    None None None
    {| doc_description := "old text"; doc_endpoints := "[]"; doc_examples := "[]";
       generated_at := 5 |}
    5 5.

Definition stored_state : state :=
  {| vars := {| server_count := 1; added_count := 0; updated_count := 0;
                skipped_count := 0; error_count := 0; error_messages := [] |};
     db := {| servers := [stored_row]; server_install_instructions := [] |};
     notices := [starting]; requests := [api_url] |}.

Definition fresh_data (now : Z) : server_data :=
  build_server_data now (plain_entry "Demo Auth" "auth for apps" "demo-auth") "auth"
    (Some ["demo"; "auth"; "apps"])
    (build_documentation now (plain_entry "Demo Auth" "auth for apps" "demo-auth")).

(** The shape of an identifier: lowercase letters, digits and single
    dashes. *)
Definition id_char (c : ascii) : bool := alphanumeric c || Ascii.eqb c dash.

Fixpoint all_chars (p : ascii -> bool) (s : string) : bool :=
  match s with
  | EmptyString => true
  | String c r => p c && all_chars p r
  end.

Definition starts_with_dash (s : string) : bool :=
  match s with
  | String c _ => Ascii.eqb c dash
  | EmptyString => false
  end.

Fixpoint no_double_dash (s : string) : bool :=
  match s with
  | EmptyString => true
  | String c r => negb (Ascii.eqb c dash && starts_with_dash r) && no_double_dash r
  end.

Definition non_alphanumeric (c : ascii) : bool := negb (alphanumeric c).

(** The six categories of the classifier. *)
Definition categories : list string := ["auth"; "database"; "ai"; "files"; "web"; "other"].

(** The registries that have default instructions. *)
Definition known_registries : list string := ["npm"; "pip"; "pypi"; "cargo"; "go"].

(** The state of the loop as long as no page has failed: nothing written to
    database [d], nothing added or updated, and every entry seen counted as
    skipped and as an error, with one message each. *)
Definition all_skipped (d : database) (s : state) : Prop :=
  db s = d
  /\ added_count (vars s) = 0%Z
  /\ updated_count (vars s) = 0%Z
  /\ (0 <= server_count (vars s) <= int4_max)%Z
  /\ skipped_count (vars s) = server_count (vars s)
  /\ error_count (vars s) = server_count (vars s)
  /\ Z.of_nat (List.length (error_messages (vars s))) = server_count (vars s).

(** The same after the handler of a failed page: one more error and one more
    message. *)
Definition page_failed (d : database) (s : state) : Prop :=
  db s = d
  /\ added_count (vars s) = 0%Z
  /\ updated_count (vars s) = 0%Z
  /\ (0 <= server_count (vars s) <= int4_max)%Z
  /\ skipped_count (vars s) = server_count (vars s)
  /\ error_count (vars s) = (server_count (vars s) + 1)%Z
  /\ Z.of_nat (List.length (error_messages (vars s))) = (server_count (vars s) + 1)%Z.


(** A source whose page holds an object where the array [servers] should
    be, and names a next page. *)
Definition malformed_source (_ : string) : fetch_result :=
  fetched {| servers_of := servers_not_array json_object;
             next := Some "https://example.org/next" |}.

(** Every nullable column of the row built from [data] has a value. *)
Definition all_present (data : server_data) : bool :=
  Server.present (data_name data) && Server.present (data_description data)
  && Server.present (data_tags data) && Server.present (data_package_registry data)
  && Server.present (data_package_name data)
  && Server.present (data_package_download_count data)
  && Server.present (data_github_url data) && Server.present (data_github_stars data)
  && Server.present (data_external_url data).

(** An entry with a list of two supplied instructions. *)
Definition supplied_entry : Entry.t :=
  Entry.make (Some "Demo Auth") (Some "auth for apps") None None None None (Some "npm")
    (Some "demo-auth") None None None
    (install_array [item_object (Some "macOS") None (Some "brew install demo-auth");
                    item_object (Some "Linux") None (Some "apt install demo-auth")]).

(** * The Python harness

    The functions of the three scripts that decide something: how
    [run_mcp_command] turns the outcome of the subprocess into a result
    dictionary, what [create_sync_functions] and [run_sync_operation] make of
    such a dictionary, which error lines the statistics printers show, and how
    [get_token_role] prepares a token.  Python values are the values of JSON;
    numbers are integers.  What the standard library does ([json.loads],
    [base64.b64decode]) is a parameter. *)

#[warnings="-register-all"]
Inductive pyval : Type :=
| py_none
| py_bool (b : bool)
| py_int (z : Z)
| py_str (s : string)
| py_list (l : list pyval)
| py_dict (d : list (string * pyval)).

Inductive py_exception : Type :=
| TypeError
| IndexError
| KeyError
| AttributeError.

Inductive py_result (A : Type) : Type :=
| returns (a : A)
| raises (e : py_exception).

Arguments returns {A} a.
Arguments raises {A} e.

(** [bool(v)]. *)
Definition truthy (v : pyval) : bool :=
  match v with
  | py_none => false
  | py_bool b => b
  | py_int z => negb (z =? 0)%Z
  | py_str s => negb (String.eqb s EmptyString)
  | py_list l => match l with [] => false | _ :: _ => true end
  | py_dict d => match d with [] => false | _ :: _ => true end
  end.

Fixpoint dict_get (d : list (string * pyval)) (key : string) (default : pyval) : pyval :=
  match d with
  | [] => default
  | (k, v) :: d' => if String.eqb k key then v else dict_get d' key default
  end.

(** [v.get(key, default)]: only a dictionary has the method. *)
Definition py_get (v : pyval) (key : string) (default : pyval) : py_result pyval :=
  match v with
  | py_dict d => returns (dict_get d key default)
  | _ => raises AttributeError
  end.

(** [v[0]]. *)
Definition py_first (v : pyval) : py_result pyval :=
  match v with
  | py_list (x :: _) => returns x
  | py_list [] => raises IndexError
  | py_str (String c _) => returns (py_str (String c EmptyString))
  | py_str EmptyString => raises IndexError
  | py_dict _ => raises KeyError
  | _ => raises TypeError
  end.

(** The characters [str.strip] removes from an ASCII text. *)
Definition py_space (c : ascii) : bool :=
  let n := code c in
  (n =? 32)%nat || ((9 <=? n)%nat && (n <=? 13)%nat) || ((28 <=? n)%nat && (n <=? 31)%nat).

Fixpoint lstrip (s : string) : string :=
  match s with
  | EmptyString => EmptyString
  | String c r => if py_space c then lstrip r else s
  end.

Fixpoint rstrip (s : string) : string :=
  match s with
  | EmptyString => EmptyString
  | String c r =>
      match rstrip r with
      | EmptyString => if py_space c then EmptyString else String c EmptyString
      | r' => String c r'
      end
  end.

Definition strip (s : string) : string := rstrip (lstrip s).

(** What [subprocess.run(..., check=True)] did: it returned with the text the
    command printed, or raised [CalledProcessError], or raised something
    else. *)
Inductive process_outcome : Type :=
| completed_process (stdout : string)
| called_process_error (stderr : option string) (returncode : Z)
| other_exception (explanation : string).

(** What [json.loads] does with a text: it returns the value, it raises
    [JSONDecodeError], or it raises another exception (a [RecursionError] on
    a text that is nested too deeply), of which [str(e)] is kept. *)
Inductive json_outcome : Type :=
| json_value (v : pyval)
| json_decode_error
| json_other_exception (explanation : string).

(** [run_mcp_command] of sync_mcp_direct.py, lines 33-70.  The inner [try]
    catches [JSONDecodeError] alone; any other exception of [json.loads]
    reaches the last handler, like one of [subprocess.run]. *)
Definition run_mcp_command (json_loads : string -> json_outcome) (p : process_outcome)
    : pyval :=
  match p with
  | completed_process stdout =>
      if negb (String.eqb (strip stdout) EmptyString) then
        match json_loads stdout with
        | json_value v => py_dict [("success", py_bool true); ("data", v)]
        | json_decode_error =>
            py_dict [("success", py_bool true); ("data", py_str (strip stdout))]
        | json_other_exception explanation =>
            py_dict [("success", py_bool false); ("error", py_str explanation)]
        end
      else py_dict [("success", py_bool true); ("data", py_none)]
  | called_process_error stderr returncode =>
      let error_message :=
        match stderr with
        | Some (String c r) => String c r
        | _ => "Unknown error"
        end in
      py_dict [("success", py_bool false); ("error", py_str error_message);
               ("exit_code", py_int returncode)]
  | other_exception explanation =>
      py_dict [("success", py_bool false); ("error", py_str explanation)]
  end.


(** [run_sync_operation], lines 506-530, from the result of its command;
    [None] is the Python [None]. *)
Definition run_sync_operation (result : pyval) : py_result (option pyval) :=
  match py_get result "success" py_none with
  | raises e => raises e
  | returns ok =>
      if negb (truthy ok) then returns None
      else
        match py_get result "data" (py_list [py_dict []]) with
        | raises e => raises e
        | returns data =>
            match py_first data with
            | raises e => raises e
            | returns row =>
                match py_get row "sync_mcp_servers_from_pulsemcp" (py_dict []) with
                | raises e => raises e
                | returns sync_result =>
                    match sync_result with
                    | py_dict d =>
                        if truthy (dict_get d "success" py_none)
                        then returns (Some sync_result)
                        else returns None
                    | _ => raises AttributeError
                    end
                end
            end
        end
  end.

(** The object of the procedure as the command hands it over: the JSON
    values of lines 441-451 and 457-461, in the single row of the query
    [SELECT sync_mcp_servers_from_pulsemcp()]. *)
Definition stats_object (st : stats) : pyval :=
  py_dict [("total", py_int (total st)); ("added", py_int (added st));
           ("updated", py_int (updated st)); ("skipped", py_int (skipped st));
           ("errors", py_list (map py_str (errors st)))].

Definition result_object (r : result) : pyval :=
  py_dict ([("success", py_bool (success r)); ("message", py_str (message r))]
           ++ match stats_of r with
              | Some st => [("stats", stats_object st)]
              | None => []
              end
           ++ match error r with
              | Some e => [("error", py_str e)]
              | None => []
              end).

Definition sync_command_result (r : result) : pyval :=
  py_dict [("success", py_bool true);
           ("data", py_list [py_dict [("sync_mcp_servers_from_pulsemcp", result_object r)]])].

(** The lines about errors that [print_sync_stats] (lines 574-582) and the
    two [print_stats] write for a list of messages. *)
Inductive line : Type :=
| errors_header (count : nat)
| error_line (index : nat) (error : string)
| more_errors (count : nat).

Fixpoint enumerate (start : nat) (l : list string) : list (nat * string) :=
  match l with
  | [] => []
  | x :: l' => (start, x) :: enumerate (S start) l'
  end.

Definition print_errors (errors : list string) : list line :=
  match errors with
  | [] => []
  | _ :: _ =>
      (errors_header (List.length errors)
       :: map (fun p => error_line (fst p) (snd p)) (enumerate 1 (firstn 5 errors)))
      ++ (if (5 <? List.length errors)%nat then [more_errors (List.length errors - 5)]
          else [])
  end.

(** How many messages a list of lines shows, and how many it says it left
    out. *)
Fixpoint shown (ls : list line) : nat :=
  match ls with
  | [] => 0
  | error_line _ _ :: rest => S (shown rest)
  | _ :: rest => shown rest
  end.

Fixpoint omitted (ls : list line) : nat :=
  match ls with
  | [] => 0
  | more_errors n :: rest => n + omitted rest
  | _ :: rest => omitted rest
  end.



Fixpoint repeat_char (c : ascii) (n : nat) : string :=
  match n with
  | O => EmptyString
  | S n' => String c (repeat_char c n')
  end.

(** The padding of line 34 of sync_with_key.py. *)
Definition pad (payload : string) : string :=
  if (String.length payload mod 4 =? 0)%nat then payload
  else payload ++ repeat_char "=" (4 - String.length payload mod 4).




(** Parsers and a decoder for the examples: one that finds no JSON in any
    text, one that gives up on every text, and a decoder that rejects every
    payload. *)
Definition no_json (_ : string) : json_outcome := json_decode_error.

Definition too_deep (_ : string) : json_outcome :=
  json_other_exception "maximum recursion depth exceeded".


(** ** The helper functions *)

Lemma holds_or (a b : option bool) : holds (sql_or a b) = holds a || holds b.
Proof. destruct a as [[|]|], b as [[|]|]; reflexivity. Qed.

Lemma holds_like_name (name : option string) (kw : string) :
  holds (like (option_map lower name) kw) = name_has kw name.
Proof. destruct name as [n|]; simpl; [destruct (contains kw (lower n))|]; reflexivity. Qed.

Lemma holds_like_desc (description : option string) (kw : string) :
  holds (like (Some (lower (or_empty description))) kw) = desc_has kw description.
Proof. unfold desc_has; simpl. destruct (contains kw _); reflexivity. Qed.

(** The ordered rules of [determine_category], with the field each keyword is
    looked up in. *)
Lemma determine_category_rules (name description : option string) :
  determine_category name description =
  if name_has "auth" name || desc_has "auth" description || desc_has "login" description
  then "auth"
  else if desc_has "database" description || desc_has "storage" description
          || name_has "db" name
  then "database"
  else if desc_has "ai" description || desc_has "llm" description
          || desc_has "language model" description
  then "ai"
  else if desc_has "file" description || desc_has "document" description then "files"
  else if desc_has "web" description || desc_has "http" description then "web"
  else "other".
Proof.
  unfold determine_category.
  change (match description with Some d => d | None => EmptyString end)
    with (or_empty description).
  rewrite !holds_or, !holds_like_name, !holds_like_desc.
  reflexivity.
Qed.

(** A name that holds a keyword of the description: the rules as the
    specification words them classify by it, the code does not look at the
    name for it. *)
Lemma name_keywords_not_scanned :
  category_by_spec (Some "Login Portal") (Some "sign in page") = "auth"
  /\ determine_category (Some "Login Portal") (Some "sign in page") = "other"
  /\ category_by_spec (Some "Web HTTP client") None = "web"
  /\ determine_category (Some "Web HTTP client") None = "other"
  /\ category_by_spec (Some "Document database") None = "database"
  /\ determine_category (Some "Document database") None = "other".
Proof. repeat split; reflexivity. Qed.

(** C6.  The classifier applies its keyword rules in order and the first one
    that matches decides, each keyword being looked up in the field the code
    names for it: auth (name or description) and login (description) give
    [auth]; database and storage (description) and db (name) give
    [database]; ai, llm and language model (description) give [ai]; file and
    document (description) give [files]; web and http (description) give
    [web]; anything else [other].  On a name that contains none of the
    keywords of the description this is the classification the
    specification words.  A description that contains "database", with no
    auth in name or description and no login in the description, is
    classified [database]; a pair that hits no keyword is classified
    [other]. *)
Theorem determine_category_first_match :
  (forall name description,
     determine_category name description = first_match rules_by_field name description)
  /\ (forall name description,
        (forall kw, In kw description_only -> name_has kw name = false) ->
        determine_category name description = category_by_spec name description)
  /\ (forall name description,
        desc_has "database" description = true ->
        name_has "auth" name = false ->
        desc_has "auth" description = false ->
        desc_has "login" description = false ->
        determine_category name description = "database")
  /\ (forall name description,
        name_has "auth" name = false -> name_has "db" name = false ->
        (forall kw,
           In kw ["auth"; "login"; "database"; "storage"; "ai"; "llm";
                  "language model"; "file"; "document"; "web"; "http"] ->
           desc_has kw description = false) ->
        determine_category name description = "other").
Proof.
  split; [|split; [|split]].
  - intros name description. rewrite determine_category_rules.
    unfold rules_by_field, first_match, rule_matches; cbn [existsb rule_category
      name_keywords description_keywords].
    rewrite ?orb_false_r, ?orb_false_l, ?orb_assoc.
    destruct (name_has "auth" name), (desc_has "auth" description),
      (desc_has "login" description), (name_has "db" name),
      (desc_has "database" description), (desc_has "storage" description); reflexivity.
  - intros name description H. rewrite determine_category_rules.
    unfold category_by_spec, rules_by_spec, first_match, rule_matches;
      cbn [existsb rule_category name_keywords description_keywords].
    repeat match goal with
           | |- context [name_has ?kw name] => rewrite (H kw) by (simpl; tauto)
           end.
    rewrite ?orb_false_r, ?orb_false_l, ?orb_assoc.
    destruct (name_has "auth" name), (desc_has "auth" description),
      (desc_has "login" description), (name_has "db" name),
      (desc_has "database" description), (desc_has "storage" description); reflexivity.
  - intros name description Hdb Hn Hd Hl.
    rewrite determine_category_rules, Hn, Hd, Hl, Hdb. reflexivity.
  - intros name description Hn Hdb H.
    rewrite determine_category_rules, Hn, Hdb.
    rewrite !H by (simpl; tauto). reflexivity.
Qed.

Lemma determine_category_first_match_witness :
  determine_category (Some "Inventory") (Some "A Database of parts")
  = category_by_spec (Some "Inventory") (Some "A Database of parts")
  /\ determine_category (Some "Inventory") (Some "A Database of parts") = "database"
  /\ determine_category (Some "Clock") (Some "tells the time") = "other".
Proof.
  destruct determine_category_first_match as (_ & H2 & H3 & H4).
  split; [|split].
  - apply H2. intros kw H; simpl in H.
    repeat (destruct H as [<-|H]; [reflexivity|]); contradiction.
  - apply H3; reflexivity.
  - apply H4; try reflexivity.
    intros kw H; simpl in H.
    repeat (destruct H as [<-|H]; [reflexivity|]); contradiction.
Defined.

Lemma extract_tags_undefined (vc : variable_conflict) (name description : option string) :
  extract_tags vc name description = Raise (undefined_column "unnest").
Proof. reflexivity. Qed.

(** C7.  The claim describes the tag list [extract_tags] generates.  The
    function generates none: the filter of lines 134-139 is a sub-select
    without FROM clause whose WHERE clause names [unnest], which is neither a
    column nor a variable there, so the statement raises on every input,
    whatever the setting of the session. *)
Theorem extract_tags_raises (vc : variable_conflict) (name description : option string) :
  extract_tags vc name description = Raise (undefined_column "unnest")
  /\ (forall tags, extract_tags vc name description <> Ok tags)
  /\ resolve vc [] extract_tags_variables "unnest" = Raise (undefined_column "unnest").
Proof.
  split; [apply extract_tags_undefined|]. split; [|reflexivity].
  intros tags. rewrite extract_tags_undefined. discriminate.
Qed.

(** On a name without capital letters the fallback of [generate_server_id] is
    the identifier the specification describes. *)
Lemma lower_char_fixed (c : ascii) : is_upper c = false -> lower_char c = c.
Proof. unfold lower_char; intros ->; reflexivity. Qed.

Lemma lower_no_upper (s : string) : no_upper s = true -> lower s = s.
Proof.
  induction s as [|c r IH]; simpl; [reflexivity|].
  intros H; apply andb_true_iff in H as [Hc Hr].
  apply negb_true_iff in Hc. rewrite lower_char_fixed, IH; auto.
Qed.

Lemma non_alphanumeric_class :
  bracket true "a-z0-9" = Ok (fun c => xorb true (existsb (item_has c) [range 97 122; range 48 57])).
Proof. reflexivity. Qed.

Lemma class_is_alphanumeric (c : ascii) :
  xorb true (existsb (item_has c) [range 97 122; range 48 57]) = negb (alphanumeric c).
Proof. unfold alphanumeric; simpl. rewrite orb_false_r. reflexivity. Qed.

Lemma replace_runs_ext (f g : ascii -> bool) :
  (forall c, f c = g c) -> forall s b, replace_runs f b s = replace_runs g b s.
Proof.
  intros E s; induction s as [|c r IH]; intros b; simpl; [reflexivity|].
  rewrite E. destruct (g c); [destruct b|]; rewrite ?IH; reflexivity.
Qed.

Lemma alphanumeric_not_upper (c : ascii) : alphanumeric c = true -> is_upper c = false.
Proof.
  unfold alphanumeric, is_upper. intros H.
  apply orb_true_iff in H as [H|H]; apply andb_true_iff in H as [H1 H2];
    apply Nat.leb_le in H1, H2; apply andb_false_iff.
  - right; apply Nat.leb_gt; lia.
  - left; apply Nat.leb_gt; lia.
Qed.

Lemma replace_runs_no_upper (s : string) (b : bool) :
  no_upper (replace_runs (fun c => negb (alphanumeric c)) b s) = true.
Proof.
  revert b; induction s as [|c r IH]; intros b; simpl; [reflexivity|].
  destruct (alphanumeric c) eqn:E; simpl.
  - rewrite (alphanumeric_not_upper c E), IH. reflexivity.
  - destruct b; simpl; rewrite ?IH; reflexivity.
Qed.

Lemma generate_server_id_fallback (name : string) :
  generate_server_id (Some name) None =
  Ok (Some (replace_runs (fun c => negb (alphanumeric c)) false name)).
Proof.
  unfold generate_server_id, bind.
  rewrite non_alphanumeric_class.
  rewrite (replace_runs_ext _ _ class_is_alphanumeric).
  rewrite lower_no_upper by apply replace_runs_no_upper. reflexivity.
Qed.

(** X22.  For a name without capital letters and without repository URL the
    identifier is the one the specification describes: the name with every
    run of non-alphanumeric characters collapsed to one [-]. *)
Lemma generate_server_id_lowercase_name (name : string) :
  no_upper name = true ->
  generate_server_id (Some name) None = Ok (Some (fallback_by_spec name)).
Proof.
  intros H. rewrite generate_server_id_fallback.
  unfold fallback_by_spec. rewrite (lower_no_upper name H). reflexivity.
Qed.

(** C4.  For an entry without repository URL the identifier should be the
    lowercase of the name with every run of non-alphanumeric characters
    collapsed to one [-]: "demo-auth" for "Demo Auth".  The function replaces
    first and lowers afterwards, so the capital letters count as
    non-alphanumeric and the identifier it derives is "-emo-uth". *)
Theorem generate_server_id_fallback_capitals :
  generate_server_id (Some "Demo Auth") None = Ok (Some "-emo-uth")
  /\ fallback_by_spec "Demo Auth" = "demo-auth".
Proof. split; reflexivity. Qed.

(** ** The install instructions *)

Lemma same_server_conflict_error :
  same_server conflict_error = Raise (ambiguous_column "server_id").
Proof. reflexivity. Qed.

Lemma same_server_use_variable :
  same_server use_variable =
  Ok (fun server_id _ => holds (sql_eq (opt_text server_id) (opt_text server_id))).
Proof. reflexivity. Qed.

Lemma same_server_use_column :
  same_server use_column =
  Ok (fun _ r => holds (sql_eq (opt_text (Instruction.server_id r))
                                (opt_text (Instruction.server_id r)))).
Proof. reflexivity. Qed.

Lemma holds_eq_self (o : option string) :
  holds (sql_eq (opt_text o) (opt_text o)) = Server.present o.
Proof. destruct o as [s|]; simpl; [rewrite String.eqb_refl|]; reflexivity. Qed.

(** What the DELETE of lines 309-311 removes, by setting: nothing (it
    raises), every row, every row with an owner.  In no case the rows of the
    record at hand and only those. *)
Lemma delete_instructions_by_setting (server_id : option string)
    (table : list Instruction.row) :
  delete_instructions conflict_error server_id table = Raise (ambiguous_column "server_id")
  /\ (forall id, delete_instructions use_variable (Some id) table = Ok [])
  /\ delete_instructions use_column server_id table =
     Ok (filter (fun r => negb (Server.present (Instruction.server_id r))) table).
Proof.
  split; [reflexivity|split].
  - intros id. unfold delete_instructions. rewrite same_server_use_variable. simpl.
    rewrite String.eqb_refl. simpl.
    f_equal. induction table as [|r t IH]; simpl; [reflexivity|exact IH].
  - unfold delete_instructions. rewrite same_server_use_column. simpl. f_equal.
    apply filter_ext. intros r. rewrite <- holds_eq_self. reflexivity.
Qed.

Lemma numbered_app (server_id : option string)
    (a b : list (option string * option string * option string)) (k : nat) :
  numbered server_id k (a ++ b)
  = (numbered server_id k a ++ numbered server_id (k + List.length a) b)%list.
Proof.
  revert k; induction a as [|[[p i] c] a IH]; intros k; simpl.
  - rewrite Nat.add_0_r. reflexivity.
  - rewrite IH. do 3 f_equal. lia.
Qed.

Lemma numbered_sort_orders (server_id : option string)
    (records : list (option string * option string * option string)) (k : nat) :
  map Instruction.sort_order (numbered server_id k records)
  = map Z.of_nat (seq k (List.length records)).
Proof.
  revert k; induction records as [|[[p i] c] l IH]; intros k; simpl;
    [reflexivity|rewrite IH; reflexivity].
Qed.

Lemma numbered_owned (id : string)
    (records : list (option string * option string * option string)) (k : nat) :
  filter (owned_by id) (numbered (Some id) k records) = numbered (Some id) k records.
Proof.
  revert k; induction records as [|[[p i] c] l IH]; intros k; simpl; [reflexivity|].
  unfold owned_by at 1; simpl. rewrite String.eqb_refl, IH. reflexivity.
Qed.

Lemma default_instructions_owned (id registry package : string) :
  filter (owned_by id) (default_instructions (Some id) registry package)
  = default_instructions (Some id) registry package.
Proof.
  unfold default_instructions.
  repeat match goal with
         | |- context [if ?b then _ else _] => destruct b
         end; simpl; unfold owned_by; simpl; rewrite ?String.eqb_refl; reflexivity.
Qed.

Lemma default_instructions_sort_orders (server_id : option string)
    (registry package : string) :
  map Instruction.sort_order (default_instructions server_id registry package)
  = map Z.of_nat (seq 0 (List.length (default_instructions server_id registry package))).
Proof.
  unfold default_instructions.
  repeat match goal with
         | |- context [if ?b then _ else _] => destruct b
         end; reflexivity.
Qed.

(** The rows of lines 341-396 are the defaults the specification lists. *)
Lemma default_instructions_by_spec (id registry package : string) :
  default_instructions (Some id) registry package = defaults_by_spec id registry package.
Proof.
  unfold default_instructions, defaults_by_spec, registry_defaults.
  cbn [assoc]. rewrite !(String.eqb_sym _ registry).
  destruct (registry =? "npm")%string; [reflexivity|].
  destruct (registry =? "pip")%string; [reflexivity|].
  destruct (registry =? "pypi")%string; [reflexivity|].
  destruct (registry =? "cargo")%string; [reflexivity|].
  destruct (registry =? "go")%string; reflexivity.
Qed.

Lemma jsonb_to_recordset_records (items : list install_item)
    (records : list (option string * option string * option string)) :
  jsonb_to_recordset items = Ok records -> records = map supplied_record items.
Proof.
  revert records; induction items as [|[p i c|] items IH]; intros records; simpl.
  - intros [= <-]. reflexivity.
  - destruct (jsonb_to_recordset items) as [l|e]; simpl; [|discriminate].
    intros [= <-]. rewrite (IH l eq_refl). reflexivity.
  - discriminate.
Qed.

Section Replacement.

(** A setting under which the condition [server_id = server_id] resolves to
    the test [f], for the pass of record [id]: the rows the pass writes pass
    the test, and a row that fails it is not a row of the record. *)
Variable vc : variable_conflict.
Variable f : option string -> Instruction.row -> bool.
Variable id : string.
Hypothesis resolved : same_server vc = Ok f.
Hypothesis written : forall r, Instruction.server_id r = Some id -> f (Some id) r = true.
Hypothesis spared : forall r, f (Some id) r = false -> owned_by id r = false.

Lemma highest_spared (base : list Instruction.row) (a : Z) :
  (forall r, In r base -> f (Some id) r = false) ->
  fold_left (fun m r => if f (Some id) r then Z.max m (Instruction.sort_order r) else m)
            base a = a.
Proof.
  revert a; induction base as [|r base IH]; intros a H; simpl; [reflexivity|].
  rewrite (H r (or_introl eq_refl)). apply IH. intros r' Hr'. apply H. right; exact Hr'.
Qed.

Lemma highest_numbered (records : list (option string * option string * option string))
    (k : nat) (a : Z) :
  a = (Z.of_nat k - 1)%Z ->
  fold_left (fun m r => if f (Some id) r then Z.max m (Instruction.sort_order r) else m)
            (numbered (Some id) k records) a
  = (Z.of_nat (k + List.length records) - 1)%Z.
Proof.
  revert k a; induction records as [|[[p i] c] l IH]; intros k a ->; simpl.
  - rewrite Nat.add_0_r. reflexivity.
  - rewrite written by reflexivity. simpl.
    rewrite (IH (S k)) by lia. f_equal. lia.
Qed.

Lemma insert_supplied_numbered
    (records placed : list (option string * option string * option string))
    (base table : list Instruction.row) :
  (forall r, In r base -> f (Some id) r = false) ->
  insert_supplied vc (Some id) records (base ++ numbered (Some id) 0 placed) = Ok table ->
  table = (base ++ numbered (Some id) 0 (placed ++ records))%list.
Proof.
  intros Hbase. revert placed.
  induction records as [|[[p i] c] l IH]; intros placed; simpl.
  - intros [= <-]. rewrite app_nil_r. reflexivity.
  - unfold next_sort_order. rewrite resolved. simpl.
    rewrite fold_left_app, (highest_spared base _ Hbase).
    rewrite (highest_numbered placed 0 (-1)%Z) by reflexivity. simpl.
    destruct (int4_add _ 1) as [order|e] eqn:E; simpl; [|discriminate].
    unfold int4_add in E.
    destruct (_ && _) in E; [|discriminate]. injection E as <-.
    replace (Z.of_nat (List.length placed) - 1 + 1)%Z
      with (Z.of_nat (0 + List.length placed)) by lia.
    rewrite <- app_assoc.
    change [Instruction.make (Some id) p i c (Z.of_nat (0 + List.length placed))]
      with (numbered (Some id) (0 + List.length placed) [(p, i, c)]).
    rewrite <- numbered_app. intros H. apply IH in H.
    rewrite <- app_assoc in H. exact H.
Qed.

Lemma spared_not_owned (base : list Instruction.row) :
  (forall r, In r base -> f (Some id) r = false) -> filter (owned_by id) base = [].
Proof.
  induction base as [|r base IH]; intros H; simpl; [reflexivity|].
  rewrite (spared r (H r (or_introl eq_refl))). apply IH.
  intros r' Hr'. apply H. right; exact Hr'.
Qed.

Lemma replacement_exact (server : Entry.t) (table table' : list Instruction.row) :
  sync_instructions vc (Some id) server table = Ok table' ->
  filter (owned_by id) table' = instructions_by_spec id server.
Proof.
  unfold sync_instructions, delete_instructions. rewrite resolved. simpl.
  set (base := filter (fun r => negb (f (Some id) r)) table).
  assert (Hbase : forall r, In r base -> f (Some id) r = false).
  { intros r Hr. apply filter_In in Hr as [_ Hr]. apply negb_true_iff in Hr. exact Hr. }
  unfold insert_instructions, instructions_by_spec.
  destruct (Entry.install_instructions server) as [|kind|[|item items]]; cbn [bind];
    try discriminate.
  - destruct (Entry.package_registry server) as [registry|],
             (Entry.package_name server) as [package|]; intros [= <-];
      rewrite <- ?default_instructions_by_spec;
      rewrite ?filter_app, ?default_instructions_owned, (spared_not_owned base Hbase);
      reflexivity.
  - destruct (Entry.package_registry server) as [registry|],
             (Entry.package_name server) as [package|]; intros [= <-];
      rewrite <- ?default_instructions_by_spec;
      rewrite ?filter_app, ?default_instructions_owned, (spared_not_owned base Hbase);
      reflexivity.
  - destruct (jsonb_to_recordset (item :: items)) as [records|e] eqn:E; cbn [bind];
      [|discriminate].
    apply jsonb_to_recordset_records in E. intros H.
    rewrite <- (app_nil_r base) in H.
    change (@nil Instruction.row) with (numbered (Some id) 0 []) in H.
    apply (insert_supplied_numbered records [] base table' Hbase) in H.
    subst table' records.
    rewrite filter_app, (spared_not_owned base Hbase), numbered_owned. reflexivity.
Qed.

End Replacement.

Lemma numbered_length (server_id : option string)
    (records : list (option string * option string * option string)) (k : nat) :
  List.length (numbered server_id k records) = List.length records.
Proof.
  revert k; induction records as [|[[p i] c] l IH]; intros k; simpl;
    [reflexivity|rewrite IH; reflexivity].
Qed.

Lemma instructions_by_spec_sort_orders (id : string) (server : Entry.t) :
  map Instruction.sort_order (instructions_by_spec id server)
  = map Z.of_nat (seq 0 (List.length (instructions_by_spec id server))).
Proof.
  unfold instructions_by_spec.
  destruct (Entry.install_instructions server) as [|kind|[|item items]];
    try (destruct (Entry.package_registry server), (Entry.package_name server);
         try reflexivity; rewrite <- default_instructions_by_spec;
         apply default_instructions_sort_orders).
  rewrite numbered_sort_orders, numbered_length. reflexivity.
Qed.

Lemma int4_add_one (a : Z) :
  (- int4_max - 2 <= a)%Z -> (a + 1 <= int4_max)%Z -> int4_add a 1 = Ok (a + 1)%Z.
Proof.
  intros H1 H2. unfold int4_add.
  destruct (a + 1 <=? int4_max)%Z eqn:E1; [|apply Z.leb_gt in E1; lia].
  destruct (- int4_max - 1 <=? a + 1)%Z eqn:E2; [reflexivity|apply Z.leb_gt in E2; lia].
Qed.

Lemma int4_add_ok (a b z : Z) : int4_add a b = Ok z -> z = (a + b)%Z.
Proof. unfold int4_add. destruct (_ && _); [intros [= <-]; reflexivity|discriminate]. Qed.

(** In a session that resolves the conflict the pass completes on any
    well-formed entry. *)

Lemma jsonb_to_recordset_objects (items : list install_item) :
  ~ In item_not_object items -> jsonb_to_recordset items = Ok (map supplied_record items).
Proof.
  induction items as [|[p i c|] items IH]; intros H; simpl.
  - reflexivity.
  - rewrite IH; [reflexivity|]. intros N. apply H. right; exact N.
  - contradiction H. left; reflexivity.
Qed.

Section Completion.

Variable vc : variable_conflict.
Variable f : option string -> Instruction.row -> bool.
Variable id : string.
Hypothesis resolved : same_server vc = Ok f.
Hypothesis written : forall r, Instruction.server_id r = Some id -> f (Some id) r = true.

Lemma insert_supplied_completes
    (records placed : list (option string * option string * option string))
    (base : list Instruction.row) :
  (forall r, In r base -> f (Some id) r = false) ->
  (Z.of_nat (List.length placed + List.length records) <= int4_max)%Z ->
  exists table,
    insert_supplied vc (Some id) records (base ++ numbered (Some id) 0 placed) = Ok table.
Proof.
  intros Hbase. revert placed.
  induction records as [|[[p i] c] l IH]; intros placed B; simpl.
  - eexists; reflexivity.
  - unfold next_sort_order. rewrite resolved. cbn [bind].
    rewrite fold_left_app, (highest_spared f id base _ Hbase).
    rewrite (highest_numbered f id written placed 0 (-1)%Z) by reflexivity.
    simpl in B.
    rewrite int4_add_one by (unfold int4_max in *; lia). cbn [bind].
    replace (Z.of_nat (0 + List.length placed) - 1 + 1)%Z
      with (Z.of_nat (0 + List.length placed)) by lia.
    rewrite <- app_assoc.
    change [Instruction.make (Some id) p i c (Z.of_nat (0 + List.length placed))]
      with (numbered (Some id) (0 + List.length placed) [(p, i, c)]).
    rewrite <- numbered_app. apply IH.
    rewrite length_app. simpl. lia.
Qed.

Lemma replacement_completes (server : Entry.t) (table : list Instruction.row) :
  (forall kind, Entry.install_instructions server <> install_not_array kind) ->
  (forall items, Entry.install_instructions server = install_array items ->
                 ~ In item_not_object items
                 /\ (Z.of_nat (List.length items) <= int4_max)%Z) ->
  exists table', sync_instructions vc (Some id) server table = Ok table'.
Proof.
  intros Harray Hitems.
  unfold sync_instructions, delete_instructions. rewrite resolved. cbn [bind].
  set (base := filter (fun r => negb (f (Some id) r)) table).
  assert (Hbase : forall r, In r base -> f (Some id) r = false).
  { intros r Hr. apply filter_In in Hr as [_ Hr]. apply negb_true_iff in Hr. exact Hr. }
  unfold insert_instructions.
  destruct (Entry.install_instructions server) as [|kind|[|item items]] eqn:E; cbn [bind].
  - destruct (Entry.package_registry server), (Entry.package_name server);
      eexists; reflexivity.
  - contradiction (Harray kind); reflexivity.
  - destruct (Entry.package_registry server), (Entry.package_name server);
      eexists; reflexivity.
  - destruct (Hitems _ eq_refl) as [Hobj Hlen].
    rewrite (jsonb_to_recordset_objects _ Hobj). cbn [bind].
    rewrite <- (app_nil_r base).
    change (@nil Instruction.row) with (numbered (Some id) 0 []).
    apply insert_supplied_completes; [exact Hbase|].
    rewrite length_map. simpl List.length in *. lia.
Qed.

End Completion.




Section Table.

Variable vc : variable_conflict.
Variable f : option string -> Instruction.row -> bool.
Variable id : string.
Hypothesis resolved : same_server vc = Ok f.
Hypothesis written : forall r, Instruction.server_id r = Some id -> f (Some id) r = true.

Lemma replacement_table (server : Entry.t) (table table' : list Instruction.row) :
  sync_instructions vc (Some id) server table = Ok table' ->
  table' = (filter (fun r => negb (f (Some id) r)) table ++ instructions_by_spec id server)%list.
Proof.
  unfold sync_instructions, delete_instructions. rewrite resolved. cbn [bind].
  set (base := filter (fun r => negb (f (Some id) r)) table).
  assert (Hbase : forall r, In r base -> f (Some id) r = false).
  { intros r Hr. apply filter_In in Hr as [_ Hr]. apply negb_true_iff in Hr. exact Hr. }
  unfold insert_instructions, instructions_by_spec.
  destruct (Entry.install_instructions server) as [|kind|[|item items]]; cbn [bind];
    try discriminate.
  - destruct (Entry.package_registry server) as [registry|],
             (Entry.package_name server) as [package|]; intros [= <-];
      rewrite <- ?default_instructions_by_spec, ?app_nil_r; reflexivity.
  - destruct (Entry.package_registry server) as [registry|],
             (Entry.package_name server) as [package|]; intros [= <-];
      rewrite <- ?default_instructions_by_spec, ?app_nil_r; reflexivity.
  - destruct (jsonb_to_recordset (item :: items)) as [records|e] eqn:E; cbn [bind];
      [|discriminate].
    apply jsonb_to_recordset_records in E. intros H.
    rewrite <- (app_nil_r base) in H.
    change (@nil Instruction.row) with (numbered (Some id) 0 []) in H.
    apply (insert_supplied_numbered vc f id resolved written records [] base table' Hbase)
      in H.
    subst table' records. reflexivity.
Qed.

End Table.

Lemma written_use_variable (id : string) (r : Instruction.row) :
  Instruction.server_id r = Some id ->
  holds (sql_eq (opt_text (Some id)) (opt_text (Some id))) = true.
Proof. intros _. simpl. rewrite String.eqb_refl. reflexivity. Qed.

Lemma written_use_column (id : string) (r : Instruction.row) :
  Instruction.server_id r = Some id ->
  holds (sql_eq (opt_text (Instruction.server_id r)) (opt_text (Instruction.server_id r)))
  = true.
Proof. intros ->. simpl. rewrite String.eqb_refl. reflexivity. Qed.





(** C3.  After [sync_instructions] has completed for a record, the rows of
    the table owned by that record are exactly the rows the latest input asks
    for (the supplied list verbatim, else the defaults the specification
    lists for the registry, else none), with nothing left from an earlier
    pass, and their sort orders are 0, 1, ..., n-1 in the order of the input.
    The pass does complete on every well-formed entry in a session that
    resolves the conflict of the DELETE. *)
Theorem sync_instructions_exact (vc : variable_conflict) (id : string)
    (server : Entry.t) (table : list Instruction.row) :
  (vc <> conflict_error ->
   (forall kind, Entry.install_instructions server <> install_not_array kind) ->
   (forall items, Entry.install_instructions server = install_array items ->
                  ~ In item_not_object items
                  /\ (Z.of_nat (List.length items) <= int4_max)%Z) ->
   exists table', sync_instructions vc (Some id) server table = Ok table')
  /\ forall table',
       sync_instructions vc (Some id) server table = Ok table' ->
       filter (owned_by id) table' = instructions_by_spec id server
       /\ map Instruction.sort_order (filter (owned_by id) table')
          = map Z.of_nat (seq 0 (List.length (filter (owned_by id) table'))).
Proof.
  split.
  - intros Hvc Harray Hitems. destruct vc; [contradiction Hvc; reflexivity| |].
    + exact (replacement_completes use_variable _ id same_server_use_variable
               (written_use_variable id) server table Harray Hitems).
    + exact (replacement_completes use_column _ id same_server_use_column
               (written_use_column id) server table Harray Hitems).
  - intros table' H.
    assert (E : filter (owned_by id) table' = instructions_by_spec id server).
    { destruct vc.
      - discriminate H.
      - refine (replacement_exact use_variable _ id same_server_use_variable _ _ _ _ _ H).
        + intros r _. simpl. rewrite String.eqb_refl. reflexivity.
        + intros r. simpl. rewrite String.eqb_refl. intros D; discriminate D.
      - refine (replacement_exact use_column _ id same_server_use_column _ _ _ _ _ H).
        + intros r ->. simpl. rewrite String.eqb_refl. reflexivity.
        + intros r. unfold owned_by.
          destruct (Instruction.server_id r); simpl;
            [rewrite String.eqb_refl; intros D; discriminate D|reflexivity]. }
    split; [exact E|]. rewrite E. apply instructions_by_spec_sort_orders.
Qed.

(** The pass on an entry with a supplied list, and on the entry of the
    specification's example, whose rows are the defaults of [npm]; the table
    holds a row of an earlier pass. *)
Lemma sync_instructions_exact_witness :
  (exists table',
     sync_instructions use_variable (Some "acme/demo-auth") supplied_entry
       [other_row; stale_row] = Ok table'
     /\ filter (owned_by "acme/demo-auth") table'
        = [Instruction.make (Some "acme/demo-auth") (Some "macOS") None
             (Some "brew install demo-auth") 0;
           Instruction.make (Some "acme/demo-auth") (Some "Linux") None
             (Some "apt install demo-auth") 1])
  /\ (exists table',
        sync_instructions use_column (Some "acme/demo-auth") demo_auth
          [other_row; stale_row] = Ok table'
        /\ filter (owned_by "acme/demo-auth") table'
           = [Instruction.make (Some "acme/demo-auth") (Some "Node.js")
                (Some "https://nodejs.org/static/images/logos/nodejs-new-pantone-black.svg")
                (Some "npm install demo-auth") 0;
              Instruction.make (Some "acme/demo-auth") (Some "Yarn")
                (Some "https://yarnpkg.com/favicon.svg")
                (Some "yarn add demo-auth") 1]).
Proof.
  split.
  - destruct (sync_instructions_exact use_variable "acme/demo-auth" supplied_entry
                [other_row; stale_row]) as [C E].
    destruct C as [table' H].
    + discriminate.
    + discriminate.
    + intros items [= <-]. split.
      * simpl. intros [D|[D|[]]]; discriminate D.
      * vm_compute. discriminate.
    + exists table'. split; [exact H|]. rewrite (proj1 (E table' H)). reflexivity.
  - destruct (sync_instructions_exact use_column "acme/demo-auth" demo_auth
                [other_row; stale_row]) as [C E].
    destruct C as [table' H].
    + discriminate.
    + discriminate.
    + intros items D; discriminate D.
    + exists table'. split; [exact H|]. rewrite (proj1 (E table' H)). reflexivity.
Defined.

(** ** One entry *)

Lemma is_server_resolved (vc : variable_conflict) :
  is_server vc =
  Ok (fun server_id r => holds (sql_eq (text (Server.id r)) (opt_text server_id))).
Proof. destruct vc; reflexivity. Qed.

(** The inner block never reaches its end: when the identifier is derived,
    the call of [extract_tags] raises.  Nothing has been written by then. *)
Lemma server_block_raises (vc : variable_conflict) (now : Z) (server : Entry.t)
    (s : state) :
  server_block vc now server s = raised (block_error server) s.
Proof.
  unfold server_block, block_error, andthen, lift.
  destruct (generate_server_id _ _) as [server_id|e]; [|reflexivity].
  rewrite is_server_resolved. unfold read. rewrite extract_tags_undefined. reflexivity.
Qed.

(** An iteration that completes is an iteration that skipped its entry. *)
Lemma process_server_finished (vc : variable_conflict) (now : Z) (server : Entry.t)
    (s s' : state) :
  process_server vc now server s = finished tt s' ->
  s' = after_skip server (block_error server) s.
Proof.
  unfold process_server, andthen, increment, andthen, read, lift, update.
  destruct (int4_add (server_count (vars s)) 1) as [z1|] eqn:E1; [|discriminate].
  rewrite server_block_raises.
  unfold server_handler, andthen, increment, andthen, read, lift, update. simpl.
  destruct (int4_add (skipped_count (vars s)) 1) as [z2|] eqn:E2; [|discriminate]. simpl.
  destruct (int4_add (error_count (vars s)) 1) as [z3|] eqn:E3; [|discriminate]. simpl.
  apply int4_add_ok in E1, E2, E3. subst. intros [= <-]. reflexivity.
Qed.

Lemma process_server_completes (vc : variable_conflict) (now : Z) (server : Entry.t)
    (s : state) :
  room 1 s ->
  process_server vc now server s = finished tt (after_skip server (block_error server) s).
Proof.
  intros [[? ?] [[? ?] [? ?]]].
  unfold process_server, andthen, increment, andthen, read, lift, update.
  rewrite int4_add_one by (unfold int4_max in *; lia).
  rewrite server_block_raises.
  unfold server_handler, andthen, increment, andthen, read, lift, update. simpl.
  rewrite (int4_add_one (skipped_count (vars s))) by (unfold int4_max in *; lia). simpl.
  rewrite (int4_add_one (error_count (vars s))) by (unfold int4_max in *; lia). simpl.
  reflexivity.
Qed.

Lemma room_after_skip (k : Z) (server : Entry.t) (e : sql_error) (s : state) :
  room (k + 1) s -> room k (after_skip server e s).
Proof. unfold room; simpl. lia. Qed.

Lemma room_weaken (k k' : Z) (s : state) : (0 <= k' <= k)%Z -> room k s -> room k' s.
Proof. unfold room. lia. Qed.

Lemma for_each_completes (vc : variable_conflict) (now : Z) (entries : list Entry.t)
    (s : state) :
  room (Z.of_nat (List.length entries)) s ->
  for_each (process_server vc now) entries s = finished tt (after_entries entries s).
Proof.
  revert s; induction entries as [|server entries IH]; intros s H; [reflexivity|].
  simpl for_each. unfold andthen.
  rewrite process_server_completes
    by (apply (room_weaken (Z.of_nat (List.length (server :: entries)))); [simpl; lia|exact H]).
  rewrite IH; [reflexivity|].
  apply room_after_skip.
  replace (Z.of_nat (List.length entries) + 1)%Z
    with (Z.of_nat (List.length (server :: entries))) by (simpl; lia).
  exact H.
Qed.

(** ** One page *)

Lemma after_entries_state (entries : list Entry.t) (s : state) :
  server_count (vars (after_entries entries s))
  = (server_count (vars s) + Z.of_nat (List.length entries))%Z
  /\ added_count (vars (after_entries entries s)) = added_count (vars s)
  /\ updated_count (vars (after_entries entries s)) = updated_count (vars s)
  /\ skipped_count (vars (after_entries entries s))
     = (skipped_count (vars s) + Z.of_nat (List.length entries))%Z
  /\ error_count (vars (after_entries entries s))
     = (error_count (vars s) + Z.of_nat (List.length entries))%Z
  /\ List.length (error_messages (vars (after_entries entries s)))
     = (List.length (error_messages (vars s)) + List.length entries)%nat
  /\ db (after_entries entries s) = db s
  /\ requests (after_entries entries s) = requests s.
Proof.
  revert s; induction entries as [|server entries IH]; intros s.
  - simpl. repeat split; lia.
  - change (after_entries (server :: entries) s)
      with (after_entries entries (after_skip server (block_error server) s)).
    destruct (IH (after_skip server (block_error server) s))
      as (H1 & H2 & H3 & H4 & H5 & H6 & H7 & H8).
    rewrite H1, H2, H3, H4, H5, H6, H7, H8. simpl.
    rewrite length_app. simpl. repeat split; lia.
Qed.

Lemma room_after_entries (k : Z) (entries : list Entry.t) (s : state) :
  room (k + Z.of_nat (List.length entries)) s -> room k (after_entries entries s).
Proof.
  destruct (after_entries_state entries s) as (H1 & _ & _ & H4 & H5 & _).
  unfold room. rewrite H1, H4, H5. lia.
Qed.

Lemma page_block_fetched (vc : variable_conflict) (now : Z)
    (http : string -> fetch_result) (url : string) (entries : list Entry.t)
    (next_url : option string) (s : state) :
  http url = fetched {| servers_of := servers_array entries; next := next_url |} ->
  room (Z.of_nat (List.length entries)) s ->
  page_block vc now http url s
  = finished next_url (after_entries entries (with_request url s)).
Proof.
  intros H R. unfold page_block, page_body, andthen, lift. rewrite H. simpl.
  rewrite for_each_completes by exact R. reflexivity.
Qed.

(** A page whose fetch raises: the handler counts one error, records the
    message and clears [next_url]. *)
Lemma page_block_fetch_raises (vc : variable_conflict) (now : Z)
    (http : string -> fetch_result) (url : string) (e : sql_error) (s : state) :
  http url = fetch_raises e ->
  (0 <= error_count (vars s) < int4_max)%Z ->
  page_block vc now http url s
  = finished None
      (with_notice (error_fetching e)
         (with_vars (array_append (fetching_message e))
            (with_vars (set_error_count (error_count (vars s) + 1))
               (with_request url s)))).
Proof.
  intros H R. unfold page_block, page_body, andthen, lift. rewrite H.
  unfold page_handler, andthen, increment, andthen, read, lift, update. simpl.
  rewrite int4_add_one by (unfold int4_max in *; lia). reflexivity.
Qed.

(** ** The page loop *)

Lemma pages_done (vc : variable_conflict) (now : Z) (http : string -> fetch_result)
    (fuel : nat) (s : state) :
  pages vc now http fuel None s = Some (finished tt s).
Proof. destruct fuel; reflexivity. Qed.

Lemma pages_chain (vc : variable_conflict) (now : Z) (http : string -> fetch_result)
    (chain : list (list Entry.t * option string)) :
  forall (url : string) (s : state) (fuel : nat),
    serves http url chain ->
    room (Z.of_nat (List.length (entries_of chain))) s ->
    (List.length chain <= fuel)%nat ->
    exists s',
      pages vc now http fuel (Some url) s = Some (finished tt s')
      /\ requests s' = (requests s ++ urls url chain)%list
      /\ server_count (vars s')
         = (server_count (vars s) + Z.of_nat (List.length (entries_of chain)))%Z
      /\ db s' = db s.
Proof.
  induction chain as [|[entries next_url] rest IH]; intros url s fuel Hs R F;
    [destruct Hs|].
  destruct fuel as [|fuel]; [simpl in F; lia|].
  unfold entries_of in R; simpl in R. rewrite length_app, Nat2Z.inj_add in R.
  fold (entries_of rest) in R.
  assert (Rpage : room (Z.of_nat (List.length entries)) s)
    by (revert R; apply room_weaken; lia).
  destruct (after_entries_state entries (with_request url s))
    as (H1 & _ & _ & _ & _ & _ & H7 & H8).
  destruct rest as [|page rest].
  - destruct Hs as [Hs ->]. simpl pages.
    rewrite (page_block_fetched vc now http url entries None s Hs Rpage).
    rewrite pages_done.
    eexists. split; [reflexivity|].
    rewrite H1, H7, H8. unfold entries_of. simpl. rewrite app_nil_r.
    repeat split; reflexivity.
  - destruct next_url as [url'|]; [|destruct Hs]. destruct Hs as [Hs Hrest].
    simpl pages.
    rewrite (page_block_fetched vc now http url entries (Some url') s Hs Rpage).
    destruct (IH url' (after_entries entries (with_request url s)) fuel Hrest)
      as (s' & P & Q1 & Q2 & Q3).
    + apply room_after_entries. revert R. unfold room; simpl. lia.
    + simpl in F |- *. lia.
    + exists s'. split; [exact P|].
      rewrite Q1, Q2, Q3, H1, H7, H8.
      change (entries_of ((entries, Some url') :: page :: rest))
        with (entries ++ entries_of (page :: rest))%list.
      rewrite length_app, Nat2Z.inj_add. simpl. rewrite <- app_assoc. simpl.
      repeat split; try reflexivity. lia.
Qed.

(** C9.  Over a finite page sequence the loop fetches one page after the
    other for as long as the page fetched names a next one, and stops at the
    first page that names none: the requests issued are exactly the URLs of
    the sequence, in order, and every entry of every page has been seen.
    With two pages, the first naming the second and the second naming none,
    exactly two pages are fetched. *)
Theorem pagination_stops_without_next (vc : variable_conflict) (now : Z)
    (http : string -> fetch_result) (chain : list (list Entry.t * option string))
    (d : database) (fuel : nat) :
  serves http api_url chain ->
  (Z.of_nat (List.length (entries_of chain)) <= int4_max)%Z ->
  (List.length chain <= fuel)%nat ->
  exists r s,
    sync_mcp_servers_from_pulsemcp vc now http fuel d = Some (r, s)
    /\ requests s = urls api_url chain
    /\ List.length (requests s) = List.length chain
    /\ option_map total (stats_of r) = Some (Z.of_nat (List.length (entries_of chain))).
Proof.
  intros Hs B F.
  destruct (pages_chain vc now http chain api_url (initial d) fuel Hs) as (s' & P & Q1 & Q2 & _).
  - unfold room; simpl. lia.
  - exact F.
  - unfold sync_mcp_servers_from_pulsemcp. rewrite P. simpl.
    eexists _, _. split; [reflexivity|]. simpl. rewrite Q1, Q2. simpl.
    repeat split.
    clear -Hs. revert Hs. generalize api_url.
    induction chain as [|[entries [url'|]] rest IH]; intros url Hs; simpl.
    + destruct Hs.
    + f_equal. destruct rest as [|page rest]; [destruct Hs as [_ D]; discriminate D|].
      apply (IH url'), Hs.
    + destruct rest as [|page rest]; [reflexivity|destruct Hs].
Qed.

Lemma pagination_stops_without_next_witness :
  exists r s,
    sync_mcp_servers_from_pulsemcp conflict_error 0 two_pages 2 empty_database = Some (r, s)
    /\ requests s = [api_url; "https://api.pulsemcp.com/v0beta/servers?page=2"]
    /\ List.length (requests s) = 2%nat
    /\ option_map total (stats_of r) = Some 2%Z.
Proof.
  apply (pagination_stops_without_next conflict_error 0 two_pages
           [([plain_entry "Alpha" "first tool" "alpha"],
             Some "https://api.pulsemcp.com/v0beta/servers?page=2");
            ([plain_entry "Gamma" "third tool" "gamma"], None)]
           empty_database 2).
  - simpl. split; [reflexivity|split; reflexivity].
  - vm_compute. discriminate.
  - simpl. lia.
Defined.

(** The claim C1 fails on the procedure: with a source that is down, the
    first fetch raises and the run reports success. *)
Lemma page_error_reported_as_success :
  source_down api_url = fetch_raises (external_error "could not connect to server")
  /\ option_map (fun p => success (fst p))
       (sync_mcp_servers_from_pulsemcp conflict_error 0 source_down 1 empty_database)
     = Some true.
Proof. split; reflexivity. Qed.

(** C1, amended.  When the fetch of a page raises, the loop stops there: no
    further request is issued, the database is left as it was, and the run
    returns the object of a completed sync, with [success] true, the counts
    accumulated so far and the message of the page error appended to the
    error list. *)
Theorem page_error_ends_run (vc : variable_conflict) (now : Z)
    (http : string -> fetch_result) (fuel : nat) (url : string) (e : sql_error)
    (s : state) (d : database) :
  http url = fetch_raises e ->
  (0 <= error_count (vars s) < int4_max)%Z ->
  exists s',
    pages vc now http (S fuel) (Some url) s = Some (finished tt s')
    /\ requests s' = (requests s ++ [url])%list
    /\ db s' = db s
    /\ fst (conclude d (finished tt s'))
       = {| success := true;
            message := "MCP servers sync completed";
            stats_of :=
              Some {| total := server_count (vars s);
                      added := added_count (vars s);
                      updated := updated_count (vars s);
                      skipped := skipped_count (vars s);
                      errors := (error_messages (vars s) ++ [fetching_message e])%list |};
            error := None |}.
Proof.
  intros H R. simpl pages.
  rewrite (page_block_fetch_raises vc now http url e s H R), pages_done.
  eexists. split; [reflexivity|]. repeat split.
Qed.

Lemma page_error_ends_run_witness :
  exists s',
    pages conflict_error 0 source_down 1 (Some api_url) (initial empty_database)
    = Some (finished tt s')
    /\ requests s' = [api_url]
    /\ db s' = empty_database
    /\ fst (conclude empty_database (finished tt s'))
       = {| success := true;
            message := "MCP servers sync completed";
            stats_of :=
              Some {| total := 0; added := 0; updated := 0; skipped := 0;
                      errors := ["Error fetching page: could not connect to server"] |};
            error := None |}.
Proof.
  apply (page_error_ends_run conflict_error 0 source_down 0 api_url
           (external_error "could not connect to server") (initial empty_database)
           empty_database).
  - reflexivity.
  - simpl. unfold int4_max. lia.
Defined.

(** C5.  Of three entries of which the second is malformed, the first and
    the third should be processed successfully: 2 successes, 1 error.  The
    run does go through all three without aborting, but none succeeds: the
    block of every entry raises at the call of [extract_tags], each entry is
    counted as skipped and as an error, nothing is written. *)
Theorem three_entries_none_succeeds (vc : variable_conflict) :
  exists r s,
    sync_mcp_servers_from_pulsemcp vc 0 one_page 1 empty_database = Some (r, s)
    /\ success r = true
    /\ option_map total (stats_of r) = Some 3%Z
    /\ option_map added (stats_of r) = Some 0%Z
    /\ option_map updated (stats_of r) = Some 0%Z
    /\ option_map skipped (stats_of r) = Some 3%Z
    /\ error_count (vars s) = 3%Z
    /\ option_map errors (stats_of r)
       = Some ["Error processing server Alpha: " ++ sqlerrm (undefined_column "unnest");
               "Error processing server Beta: " ++ sqlerrm (undefined_column "unnest");
               "Error processing server Gamma: " ++ sqlerrm (undefined_column "unnest")]
    /\ db s = empty_database.
Proof.
  destruct vc;
    match goal with
    | |- exists r s, ?run = Some (r, s) /\ _ =>
        let v := eval vm_compute in run in
        replace run with v by (vm_compute; reflexivity)
    end;
    eexists _, _; (split; [reflexivity|]); repeat split; vm_compute; reflexivity.
Qed.

(** The counters after the reconciler: the count of entries seen is not
    touched, and one of added, updated and skipped has gone up by one. *)
Lemma reconcile_counts (vc : variable_conflict) (now : Z) (server_id : option string)
    (data : server_data) (existing : option Server.row) (s s' : state) (b : bool) :
  reconcile vc now server_id data existing s = finished b s' ->
  server_count (vars s') = server_count (vars s) /\ counted_once s s'.
Proof.
  unfold counted_once.
  destruct existing as [row|]; unfold reconcile, andthen, read, lift.
  - destruct (update_server vc now server_id data (servers (db s))) as [[table res]|];
      [|discriminate].
    unfold update, increment, andthen, read, lift, update, ret.
    destruct (match res with Some r => Server.is_not_null r | None => false end); simpl.
    + destruct (int4_add (updated_count (vars s)) 1) as [z|] eqn:E; simpl; [|discriminate].
      apply int4_add_ok in E. subst z. intros [= _ <-]. simpl. tauto.
    + destruct (int4_add (skipped_count (vars s)) 1) as [z|] eqn:E; simpl; [|discriminate].
      apply int4_add_ok in E. subst z. intros [= _ <-]. simpl. tauto.
  - destruct (insert_server now server_id data (servers (db s))) as [[table r]|];
      [|discriminate].
    unfold update, increment, andthen, read, lift, update, ret.
    destruct (Server.is_not_null r); simpl.
    + destruct (int4_add (added_count (vars s)) 1) as [z|] eqn:E; simpl; [|discriminate].
      apply int4_add_ok in E. subst z. intros [= _ <-]. simpl. tauto.
    + destruct (int4_add (skipped_count (vars s)) 1) as [z|] eqn:E; simpl; [|discriminate].
      apply int4_add_ok in E. subst z. intros [= _ <-]. simpl. tauto.
Qed.

(** The statements after the reconciler touch no counter. *)
Lemma store_server_counts (vc : variable_conflict) (now : Z) (server : Entry.t)
    (server_id : option string) (data : server_data) (existing : option Server.row)
    (s s' : state) :
  store_server vc now server server_id data existing s = finished tt s' ->
  server_count (vars s') = server_count (vars s) /\ counted_once s s'.
Proof.
  unfold store_server, andthen at 1.
  destruct (reconcile vc now server_id data existing s) as [[|] s1|] eqn:R;
    [| |discriminate]; apply reconcile_counts in R.
  - unfold andthen, read, lift.
    destruct (sync_instructions vc server_id server (server_install_instructions (db s1)));
      [|discriminate].
    unfold update, ret. cbn [vars set_instructions with_db].
    destruct (server_count (vars s1) mod 10 =? 0)%Z; intros [= <-]; exact R.
  - unfold ret. intros [= <-]. exact R.
Qed.

(** C10.  Every completed iteration of the entry loop counts its entry once
    as seen and once in exactly one of the counters added, updated and
    skipped, so that the count of entries seen stays equal to the sum of the
    three.  An iteration of the loop ends in the handler, before anything is
    written: it counts the entry as skipped, and it does complete as long as
    the counters have room.  The same holds of the count of line 218 followed
    by the second half of the block (the reconciler and what follows it),
    whenever that half runs to its end, whether the record was written or the
    write was given up. *)
Theorem iteration_accounts_entry (vc : variable_conflict) (now : Z) (server : Entry.t)
    (s : state) :
  accounted s ->
  (room 1 s -> exists s', process_server vc now server s = finished tt s')
  /\ (forall s',
        process_server vc now server s = finished tt s' ->
        server_count (vars s') = (server_count (vars s) + 1)%Z
        /\ added_count (vars s') = added_count (vars s)
        /\ updated_count (vars s') = updated_count (vars s)
        /\ skipped_count (vars s') = (skipped_count (vars s) + 1)%Z
        /\ counted_once s s'
        /\ accounted s')
  /\ (forall server_id data existing s1 s',
        increment server_count set_server_count s = finished tt s1 ->
        store_server vc now server server_id data existing s1 = finished tt s' ->
        server_count (vars s') = (server_count (vars s) + 1)%Z
        /\ counted_once s s'
        /\ accounted s').
Proof.
  intros A. split; [|split].
  - intros R. eexists. apply process_server_completes, R.
  - intros s' H. apply process_server_finished in H. subst s'.
    unfold accounted, counted_once in *. simpl. repeat split; try reflexivity; [|lia].
    right; right. repeat split.
  - intros server_id data existing s1 s' I H.
    apply store_server_counts in H as [H1 H2].
    unfold increment, andthen, read, lift, update in I.
    destruct (int4_add (server_count (vars s)) 1) as [z|] eqn:E; [|discriminate I].
    apply int4_add_ok in E. subst z. injection I as <-.
    unfold accounted, counted_once in *. simpl in *. rewrite H1.
    split; [reflexivity|]. split; [exact H2|]. lia.
Qed.

(** The entry of the example in the loop, and the second half of the block
    on a record that is written. *)
Lemma iteration_accounts_entry_witness :
  (exists s',
     process_server conflict_error 0 demo_auth (initial empty_database) = finished tt s'
     /\ server_count (vars s') = 1%Z
     /\ skipped_count (vars s') = 1%Z
     /\ accounted s')
  /\ (exists s1 s',
        increment server_count set_server_count (initial empty_database) = finished tt s1
        /\ store_server use_column 9 demo_auth (Some "acme/demo-auth") (fresh_data 9) None s1
           = finished tt s'
        /\ server_count (vars s') = 1%Z
        /\ counted_once (initial empty_database) s'
        /\ accounted s').
Proof.
  destruct (iteration_accounts_entry conflict_error 0 demo_auth (initial empty_database)
              eq_refl) as (T & P & _).
  destruct (iteration_accounts_entry use_column 9 demo_auth (initial empty_database)
              eq_refl) as (_ & _ & F).
  split.
  - destruct T as [s' H]; [vm_compute; repeat split; discriminate|].
    exists s'. destruct (P s' H) as (H1 & _ & _ & H4 & _ & H6).
    split; [exact H|]. split; [exact H1|]. split; [exact H4|exact H6].
  - match goal with
    | |- exists s1 s', ?i = finished tt s1 /\ _ =>
        let v := eval vm_compute in i in
        match v with
        | finished _ ?st1 =>
            assert (I : i = finished tt st1) by (vm_compute; reflexivity);
            exists st1;
            let w := eval vm_compute in
                       (store_server use_column 9 demo_auth (Some "acme/demo-auth")
                          (fresh_data 9) None st1) in
            match w with
            | finished _ ?st =>
                assert (H : store_server use_column 9 demo_auth (Some "acme/demo-auth")
                              (fresh_data 9) None st1 = finished tt st)
                  by (vm_compute; reflexivity);
                exists st
            end
        end
    end.
    destruct (F _ _ _ _ _ I H) as (H1 & H2 & H3).
    split; [exact I|]. split; [exact H|]. split; [exact H1|]. split; [exact H2|exact H3].
Defined.

(** ** The reconciler *)

Lemma matches_server (server_id : option string) (r : Server.row) :
  holds (sql_eq (text (Server.id r)) (opt_text server_id)) = true
  <-> server_id = Some (Server.id r).
Proof.
  destruct server_id as [id|]; simpl; [|split; discriminate].
  destruct (String.eqb_spec (Server.id r) id) as [->|N]; split; try reflexivity;
    try discriminate.
  intros [= ->]. contradiction N; reflexivity.
Qed.

(** The UPDATE statement rewrites the rows of the identifier and no other,
    and in those it leaves [id] and [created_at] alone. *)
Lemma update_server_rows (vc : variable_conflict) (now : Z) (server_id : option string)
    (data : server_data) (table table' : list Server.row) (res : option Server.row) :
  update_server vc now server_id data table = Ok (table', res) ->
  exists downloads stars,
    bigint_cast (data_package_download_count data) = Ok downloads
    /\ bigint_cast (data_github_stars data) = Ok stars
    /\ table' = map (fun r => if holds (sql_eq (text (Server.id r)) (opt_text server_id))
                              then updated_row data downloads stars now r else r) table.
Proof.
  unfold update_server. rewrite is_server_resolved. cbn [bind].
  destruct (bigint_cast (data_package_download_count data)) as [downloads|];
    [|discriminate].
  destruct (bigint_cast (data_github_stars data)) as [stars|]; [|discriminate].
  cbn [bind]. intros [= <- _]. exists downloads, stars. repeat split.
Qed.

Lemma reconcile_update_database (vc : variable_conflict) (now : Z)
    (server_id : option string) (data : server_data) (existing : Server.row)
    (s s' : state) (b : bool) :
  reconcile vc now server_id data (Some existing) s = finished b s' ->
  server_install_instructions (db s') = server_install_instructions (db s)
  /\ exists res, update_server vc now server_id data (servers (db s))
                 = Ok (servers (db s'), res).
Proof.
  unfold reconcile, andthen, read, lift.
  destruct (update_server vc now server_id data (servers (db s))) as [[table res]|] eqn:E;
    [|discriminate].
  unfold update, increment, andthen, read, lift, update, ret.
  destruct (match res with Some r => Server.is_not_null r | None => false end); simpl.
  - destruct (int4_add (updated_count (vars s)) 1); simpl; [|discriminate].
    intros [= _ <-]. simpl. split; [reflexivity|exists res; reflexivity].
  - destruct (int4_add (skipped_count (vars s)) 1); simpl; [|discriminate].
    intros [= _ <-]. simpl. split; [reflexivity|exists res; reflexivity].
Qed.

Lemma reconcile_insert_database (vc : variable_conflict) (now : Z)
    (server_id : option string) (data : server_data) (s s' : state) (b : bool) :
  reconcile vc now server_id data None s = finished b s' ->
  server_install_instructions (db s') = server_install_instructions (db s)
  /\ exists r, insert_server now server_id data (servers (db s))
               = Ok (servers (db s'), r).
Proof.
  unfold reconcile, andthen, read, lift.
  destruct (insert_server now server_id data (servers (db s))) as [[table r]|] eqn:E;
    [|discriminate].
  unfold update, increment, andthen, read, lift, update, ret.
  destruct (Server.is_not_null r); simpl.
  - destruct (int4_add (added_count (vars s)) 1); simpl; [|discriminate].
    intros [= _ <-]. simpl. split; [reflexivity|exists r; reflexivity].
  - destruct (int4_add (skipped_count (vars s)) 1); simpl; [|discriminate].
    intros [= _ <-]. simpl. split; [reflexivity|exists r; reflexivity].
Qed.

(** C8.  For an existing record the update path of the reconciler rewrites
    the mutable fields and the update timestamp of that record and nothing
    else: the identifier and the creation timestamp of every row, the rows of
    other records and the instruction table are as before.  For an absent
    record the insert path appends one row whose creation and update
    timestamps are both the current time. *)
Theorem reconcile_timestamps (vc : variable_conflict) (now : Z)
    (server_id : option string) (s s' : state) (b : bool) :
  (forall data existing,
     reconcile vc now server_id data (Some existing) s = finished b s' ->
     server_install_instructions (db s') = server_install_instructions (db s)
     /\ List.length (servers (db s')) = List.length (servers (db s))
     /\ forall i r,
          nth_error (servers (db s)) i = Some r ->
          exists r',
            nth_error (servers (db s')) i = Some r'
            /\ Server.id r' = Server.id r
            /\ Server.created_at r' = Server.created_at r
            /\ (server_id <> Some (Server.id r) -> r' = r)
            /\ (server_id = Some (Server.id r) ->
                Server.updated_at r' = now
                /\ Server.name r' = data_name data
                /\ Server.description r' = data_description data
                /\ Server.category r' = data_category data
                /\ Server.tags r' = data_tags data
                /\ Server.package_registry r' = data_package_registry data
                /\ Server.package_name r' = data_package_name data
                /\ bigint_cast (data_package_download_count data)
                   = Ok (Server.package_download_count r')
                /\ Server.github_url r' = data_github_url data
                /\ bigint_cast (data_github_stars data) = Ok (Server.github_stars r')
                /\ Server.external_url r' = data_external_url data
                /\ Server.api_documentation r' = data_api_documentation data))
  /\ (forall server category tags,
        reconcile vc now server_id
          (build_server_data now server category tags (build_documentation now server))
          None s = finished b s' ->
        server_install_instructions (db s') = server_install_instructions (db s)
        /\ exists r,
             servers (db s') = (servers (db s) ++ [r])%list
             /\ server_id = Some (Server.id r)
             /\ Server.created_at r = now
             /\ Server.updated_at r = now).
Proof.
  split.
  - intros data existing H.
    apply reconcile_update_database in H as [Hi [res H]].
    apply update_server_rows in H as (downloads & stars & Hd & Hs & Ht).
    split; [exact Hi|]. rewrite Ht. split; [apply length_map|].
    intros i r Hr. rewrite nth_error_map, Hr. cbn [option_map].
    destruct (holds (sql_eq (text (Server.id r)) (opt_text server_id))) eqn:E.
    + eexists. split; [reflexivity|]. simpl.
      split; [reflexivity|]. split; [reflexivity|]. split.
      * intros N. apply matches_server in E. contradiction.
      * intros _. repeat split; assumption.
    + eexists. split; [reflexivity|].
      split; [reflexivity|]. split; [reflexivity|]. split.
      * reflexivity.
      * intros E'. apply matches_server in E'. rewrite E' in E. discriminate E.
  - intros server category tags H.
    apply reconcile_insert_database in H as [Hi [r H]].
    split; [exact Hi|]. exists r.
    unfold insert_server in H.
    destruct (bigint_cast _) as [downloads|]; [|discriminate H].
    destruct (bigint_cast _) as [stars|]; [|discriminate H].
    destruct server_id as [id|]; [|discriminate H].
    cbn [bind] in H. injection H as <- <-. repeat split.
Qed.

Lemma reconcile_timestamps_witness :
  exists s',
    reconcile conflict_error 9 (Some "demo-auth") (fresh_data 9) (Some stored_row)
      stored_state = finished true s'
    /\ (exists r',
          nth_error (servers (db s')) 0 = Some r'
          /\ Server.created_at r' = 5%Z /\ Server.updated_at r' = 9%Z)
    /\ exists s'',
         reconcile conflict_error 9 (Some "other-id") (fresh_data 9) None stored_state
         = finished true s''
         /\ exists r,
              servers (db s'') = [stored_row; r]
              /\ Server.created_at r = 9%Z /\ Server.updated_at r = 9%Z.
Proof.
  eexists. split; [vm_compute; reflexivity|]. split.
  - destruct (proj1 (reconcile_timestamps conflict_error 9 (Some "demo-auth")
                       stored_state _ true) (fresh_data 9) stored_row eq_refl)
      as (_ & _ & H).
    destruct (H 0%nat stored_row eq_refl) as (r' & H1 & _ & H3 & _ & H5).
    exists r'. split; [exact H1|]. split; [exact H3|]. apply H5. reflexivity.
  - eexists. split; [vm_compute; reflexivity|].
    destruct (proj2 (reconcile_timestamps conflict_error 9 (Some "other-id")
                       stored_state _ true)
                (plain_entry "Demo Auth" "auth for apps" "demo-auth") "auth"
                (Some ["demo"; "auth"; "apps"]) eq_refl)
      as (_ & r & H1 & _ & H3 & H4).
    exists r. split; [exact H1|]. split; assumption.
Defined.


(** X15.  In a session that resolves the conflict on [server_id], a pass
    completes for every entry whose [install_instructions] is absent or an
    array of at most 2147483647 objects. *)
Lemma sync_instructions_completes (vc : variable_conflict) (id : string)
    (server : Entry.t) (table : list Instruction.row) :
  vc <> conflict_error ->
  (forall kind, Entry.install_instructions server <> install_not_array kind) ->
  (forall items, Entry.install_instructions server = install_array items ->
                 ~ In item_not_object items
                 /\ (Z.of_nat (List.length items) <= int4_max)%Z) ->
  exists table', sync_instructions vc (Some id) server table = Ok table'.
Proof.
  intros Hvc. destruct vc; [contradiction Hvc; reflexivity| |].
  - apply (replacement_completes use_variable _ id same_server_use_variable).
    intros r _. simpl. rewrite String.eqb_refl. reflexivity.
  - apply (replacement_completes use_column _ id same_server_use_column).
    intros r ->. simpl. rewrite String.eqb_refl. reflexivity.
Qed.

(** * Further properties of the database functions *)

(** ** Identifiers *)

Lemma alphanumeric_not_dash (c : ascii) : alphanumeric c = true -> Ascii.eqb c dash = false.
Proof.
  intros H. destruct (Ascii.eqb_spec c dash) as [->|]; [discriminate H|reflexivity].
Qed.

Lemma replace_runs_shape (s : string) (b : bool) :
  all_chars id_char (replace_runs non_alphanumeric b s) = true
  /\ no_double_dash (replace_runs non_alphanumeric b s) = true
  /\ (b = true -> starts_with_dash (replace_runs non_alphanumeric b s) = false).
Proof.
  revert b; induction s as [|c r IH]; intros b.
  - repeat split.
  - cbn [replace_runs]. change (non_alphanumeric c) with (negb (alphanumeric c)).
    destruct (alphanumeric c) eqn:E; cbn [negb].
    + destruct (IH false) as (H1 & H2 & _).
      cbn [all_chars no_double_dash starts_with_dash].
      unfold id_char at 1. rewrite E, H1, H2, (alphanumeric_not_dash c E). repeat split.
    + destruct (IH true) as (H1 & H2 & H3). destruct b.
      * split; [exact H1|]. split; [exact H2|exact H3].
      * cbn [all_chars no_double_dash starts_with_dash].
        rewrite H1, H2, (H3 eq_refl). repeat split. discriminate.
Qed.

Lemma replace_runs_length (cls : ascii -> bool) (s : string) (b : bool) :
  (String.length (replace_runs cls b s) <= String.length s)%nat.
Proof.
  revert b; induction s as [|c r IH]; intros b; simpl; [lia|].
  destruct (cls c); [destruct b|]; simpl;
    [specialize (IH true)|specialize (IH true)|specialize (IH false)]; lia.
Qed.

Lemma replace_runs_fixed (s : string) (b : bool) :
  all_chars id_char s = true -> no_double_dash s = true ->
  (b = true -> starts_with_dash s = false) ->
  replace_runs non_alphanumeric b s = s.
Proof.
  revert b; induction s as [|c r IH]; intros b Hc Hd Hb; [reflexivity|].
  cbn [all_chars no_double_dash] in Hc, Hd.
  apply andb_true_iff in Hc as [Hc Hr]. apply andb_true_iff in Hd as [Hd Hdr].
  apply negb_true_iff in Hd.
  cbn [replace_runs]. change (non_alphanumeric c) with (negb (alphanumeric c)).
  destruct (alphanumeric c) eqn:E; cbn [negb].
  - rewrite IH; auto. discriminate.
  - unfold id_char in Hc. rewrite E in Hc. cbn [orb] in Hc.
    destruct b.
    + specialize (Hb eq_refl). cbn [starts_with_dash] in Hb.
      rewrite Hb in Hc. discriminate Hc.
    + rewrite Hc in Hd. cbn [andb] in Hd. rewrite IH; auto.
      apply Ascii.eqb_eq in Hc. subst c. reflexivity.
Qed.

(** X1.  Without repository URL the identifier of a name consists of
    lowercase letters, digits and dashes only, never has two dashes in a row
    and is at most as long as the name. *)
Theorem fallback_identifier_shape (name : string) :
  exists id,
    generate_server_id (Some name) None = Ok (Some id)
    /\ all_chars id_char id = true
    /\ no_double_dash id = true
    /\ (String.length id <= String.length name)%nat.
Proof.
  eexists. split; [apply generate_server_id_fallback|].
  destruct (replace_runs_shape name false) as (H1 & H2 & _).
  split; [exact H1|]. split; [exact H2|]. apply replace_runs_length.
Qed.

(** X2.  The fallback is idempotent: an identifier it has derived derives
    itself when it is used as a name. *)
Theorem fallback_identifier_stable (name id : string) :
  generate_server_id (Some name) None = Ok (Some id) ->
  generate_server_id (Some id) None = Ok (Some id).
Proof.
  rewrite !generate_server_id_fallback. intros [= <-].
  destruct (replace_runs_shape name false) as (H1 & H2 & _).
  do 2 f_equal. apply (replace_runs_fixed _ false); auto. discriminate.
Qed.

Lemma fallback_identifier_stable_witness :
  generate_server_id (Some "my tool_2") None = Ok (Some "my-tool-2")
  /\ generate_server_id (Some "my-tool-2") None = Ok (Some "my-tool-2").
Proof.
  split; [reflexivity|].
  apply (fallback_identifier_stable "my tool_2" "my-tool-2"). reflexivity.
Defined.

Lemma strip_prefix_prefix (p s r : string) : strip_prefix p s = Some r -> prefix p s = true.
Proof.
  revert s; induction p as [|a p IH]; intros s; simpl;
    [intros _; destruct s; reflexivity|].
  destruct s as [|b s]; [discriminate|].
  destruct (Ascii.eqb_spec a b) as [->|N]; [|discriminate].
  intros H. simpl.
  destruct (ascii_dec b b) as [_|N]; [apply (IH s H)|contradiction N; reflexivity].
Qed.

Lemma github_match_needs_host (cls : ascii -> bool) (url : string) :
  contains "github.com" url = false -> github_match cls url = None.
Proof.
  induction url as [|c r IH]; intros H.
  - reflexivity.
  - change (contains "github.com" (String c r))
      with (prefix "github.com" (String c r) || contains "github.com" r) in H.
    apply orb_false_iff in H as [Hp Hr].
    change (github_match cls (String c r))
      with (match github_match_here cls (String c r) with
            | Some m => Some m
            | None => github_match cls r
            end).
    unfold github_match_here.
    destruct (strip_prefix "github.com" (String c r)) as [rest|] eqn:E.
    + apply strip_prefix_prefix in E. rewrite E in Hp. discriminate Hp.
    + apply IH, Hr.
Qed.

(** X3.  A repository URL that does not contain "github.com" plays no part:
    the identifier is the one derived from the name alone. *)
Theorem other_hosts_fall_back (name : option string) (url : string) :
  contains "github.com" url = false ->
  generate_server_id name (Some url) = generate_server_id name None.
Proof.
  intros H. unfold generate_server_id, regexp_matches_github.
  change (bracket false (String backslash "w.-"))
    with (Ok (fun c => xorb false (existsb (item_has c)
                                     [word_class; range 46 46; range 45 45]))).
  cbn [bind]. rewrite (github_match_needs_host _ url H). reflexivity.
Qed.

Lemma other_hosts_fall_back_witness :
  generate_server_id (Some "demo auth") (Some "https://gitlab.com/acme/demo-auth")
  = generate_server_id (Some "demo auth") None.
Proof.
  apply (other_hosts_fall_back (Some "demo auth") "https://gitlab.com/acme/demo-auth").
  reflexivity.
Defined.

(** X4.  On a repository URL in which the pattern of line 88 finds an owner
    and a repository, the derivation does not return: compiling the pattern
    of line 96 raises, whatever the name. *)
Theorem github_url_raises (name : option string) (url : string) (m : string * string) :
  regexp_matches_github url = Ok (Some m) ->
  generate_server_id name (Some url) = Raise invalid_regular_expression.
Proof.
  intros H. unfold generate_server_id. rewrite H. cbn [bind]. destruct m. reflexivity.
Qed.

Lemma github_url_raises_witness :
  generate_server_id (Some "Demo Auth") (Some "https://github.com/acme/demo-auth")
  = Raise invalid_regular_expression.
Proof.
  apply (github_url_raises (Some "Demo Auth") "https://github.com/acme/demo-auth"
           ("acme", "demo-auth")).
  reflexivity.
Defined.

(** ** Categories *)

Lemma code_lower_char (c : ascii) :
  is_upper c = true -> code (lower_char c) = (code c + 32)%nat.
Proof.
  intros H. unfold lower_char. rewrite H. unfold code.
  apply nat_ascii_embedding.
  unfold is_upper, code in H. apply andb_true_iff in H as [_ H].
  apply Nat.leb_le in H. lia.
Qed.

Lemma lower_char_idempotent (c : ascii) : lower_char (lower_char c) = lower_char c.
Proof.
  destruct (is_upper c) eqn:E.
  - apply lower_char_fixed. unfold is_upper. rewrite (code_lower_char c E).
    unfold is_upper in E. apply andb_true_iff in E as [E _]. apply Nat.leb_le in E.
    apply andb_false_iff. right. apply Nat.leb_gt. lia.
  - rewrite (lower_char_fixed c E). apply lower_char_fixed, E.
Qed.

Lemma lower_idempotent (s : string) : lower (lower s) = lower s.
Proof.
  induction s as [|c r IH]; simpl; [reflexivity|].
  rewrite lower_char_idempotent, IH. reflexivity.
Qed.

(** X5.  The classifier always answers with one of its six categories, does
    not depend on the case of the letters of either field, and treats a NULL
    description like an empty one. *)
Theorem determine_category_total (name description : option string) :
  In (determine_category name description) categories
  /\ determine_category (option_map lower name) (option_map lower description)
     = determine_category name description
  /\ determine_category name None = determine_category name (Some EmptyString).
Proof.
  split; [|split; [|reflexivity]].
  - rewrite determine_category_rules.
    repeat match goal with
           | |- context [if ?b then _ else _] => destruct b
           end; simpl; tauto.
  - rewrite !determine_category_rules.
    assert (N : forall kw, name_has kw (option_map lower name) = name_has kw name).
    { intros kw. destruct name as [n|]; simpl; [rewrite lower_idempotent|]; reflexivity. }
    assert (D : forall kw,
               desc_has kw (option_map lower description) = desc_has kw description).
    { intros kw. unfold desc_has.
      destruct description as [d|]; simpl; [rewrite lower_idempotent|]; reflexivity. }
    rewrite !N, !D. reflexivity.
Qed.

(** ** Default instructions *)

(** X6.  Default instructions exist exactly for the registries npm, pip,
    pypi, cargo and go, spelled this way; there are never more than two. *)
Theorem default_instructions_registries (server_id : option string)
    (registry package : string) :
  (default_instructions server_id registry package <> [] <-> In registry known_registries)
  /\ (List.length (default_instructions server_id registry package) <= 2)%nat.
Proof.
  unfold default_instructions, known_registries.
  destruct (String.eqb_spec registry "npm") as [->|N1].
  { split; [split; [simpl; tauto|discriminate]|simpl; lia]. }
  destruct (String.eqb_spec registry "pip") as [->|N2].
  { split; [split; [simpl; tauto|discriminate]|simpl; lia]. }
  destruct (String.eqb_spec registry "pypi") as [->|N3].
  { split; [split; [simpl; tauto|discriminate]|simpl; lia]. }
  destruct (String.eqb_spec registry "cargo") as [->|N4].
  { split; [split; [simpl; tauto|discriminate]|simpl; lia]. }
  destruct (String.eqb_spec registry "go") as [->|N5].
  { split; [split; [simpl; tauto|discriminate]|simpl; lia]. }
  simpl. split; [|lia]. split.
  - intros H; contradiction H; reflexivity.
  - intros [H|[H|[H|[H|[H|[]]]]]]; symmetry in H; contradiction.
Qed.

(** ** The outcomes of a run *)

Lemma all_skipped_room (d : database) (s : state) :
  all_skipped d s -> (server_count (vars s) < int4_max)%Z -> room 1 s.
Proof. unfold all_skipped, room. intros (_ & _ & _ & ? & -> & -> & _) ?. lia. Qed.

Lemma all_skipped_after_skip (d : database) (server : Entry.t) (e : sql_error) (s : state) :
  all_skipped d s -> (server_count (vars s) < int4_max)%Z ->
  all_skipped d (after_skip server e s).
Proof.
  unfold all_skipped. intros (H1 & H2 & H3 & H4 & H5 & H6 & H7) B. simpl.
  rewrite length_app, Nat2Z.inj_add. simpl. repeat split; try assumption; lia.
Qed.

Lemma process_server_outcome (vc : variable_conflict) (now : Z) (d : database)
    (server : Entry.t) (s : state) :
  all_skipped d s ->
  match process_server vc now server s with
  | finished _ s' => all_skipped d s'
  | raised e s' =>
      e = integer_out_of_range /\ all_skipped d s' /\ server_count (vars s') = int4_max
  end.
Proof.
  intros A. destruct (Z.ltb_spec (server_count (vars s)) int4_max) as [B|B].
  - rewrite process_server_completes by (apply (all_skipped_room d); assumption).
    apply all_skipped_after_skip; assumption.
  - assert (E : server_count (vars s) = int4_max)
      by (destruct A as (_ & _ & _ & ? & _); lia).
    assert (O : int4_add (server_count (vars s)) 1 = Raise integer_out_of_range)
      by (rewrite E; reflexivity).
    unfold process_server, andthen, increment, andthen, read, lift.
    rewrite O. cbn beta iota. split; [reflexivity|split; assumption].
Qed.

Lemma for_each_outcome (vc : variable_conflict) (now : Z) (d : database)
    (entries : list Entry.t) (s : state) :
  all_skipped d s ->
  match for_each (process_server vc now) entries s with
  | finished _ s' => all_skipped d s' /\ requests s' = requests s
  | raised e s' =>
      e = integer_out_of_range /\ all_skipped d s' /\ server_count (vars s') = int4_max
      /\ requests s' = requests s
  end.
Proof.
  revert s; induction entries as [|server entries IH]; intros s A.
  - simpl. split; [exact A|reflexivity].
  - simpl for_each. unfold andthen.
    pose proof (process_server_outcome vc now d server s A) as P.
    destruct (Z.ltb_spec (server_count (vars s)) int4_max) as [B|B].
    + rewrite process_server_completes in P |- *
        by (apply (all_skipped_room d); assumption).
      specialize (IH _ P).
      destruct (for_each _ entries _) as [[] s'|e s']; exact IH.
    + assert (E : server_count (vars s) = int4_max)
        by (destruct A as (_ & _ & _ & ? & _); lia).
      assert (O : int4_add (server_count (vars s)) 1 = Raise integer_out_of_range)
        by (rewrite E; reflexivity).
      unfold process_server, andthen, increment, andthen, read, lift.
      rewrite O. cbn beta iota.
      split; [reflexivity|]. split; [exact A|]. split; [exact E|reflexivity].
Qed.

Lemma page_handler_outcome (d : database) (e : sql_error) (s : state) :
  all_skipped d s ->
  match page_handler e s with
  | finished next_url s' => next_url = None /\ page_failed d s'
  | raised e' _ => e' = integer_out_of_range
  end.
Proof.
  intros (H1 & H2 & H3 & H4 & H5 & H6 & H7).
  unfold page_handler, andthen, increment, andthen, read, lift, update, ret.
  destruct (int4_add (error_count (vars s)) 1) as [z|e'] eqn:E; cbn.
  - apply int4_add_ok in E. subst z. split; [reflexivity|].
    unfold page_failed; simpl. rewrite length_app, Nat2Z.inj_add. simpl.
    repeat split; try assumption; lia.
  - unfold int4_add in E. destruct (_ && _) in E; [discriminate E|].
    injection E as <-. reflexivity.
Qed.

Lemma all_skipped_frame (d : database) (s s' : state) :
  vars s' = vars s -> db s' = db s -> all_skipped d s -> all_skipped d s'.
Proof. unfold all_skipped. intros -> ->. tauto. Qed.

Lemma page_block_outcome (vc : variable_conflict) (now : Z)
    (http : string -> fetch_result) (d : database) (url : string) (s : state) :
  all_skipped d s ->
  match page_block vc now http url s with
  | finished next_url s' => all_skipped d s' \/ (next_url = None /\ page_failed d s')
  | raised e _ => e = integer_out_of_range
  end.
Proof.
  intros A.
  assert (A1 : all_skipped d (with_request url s))
    by (apply (all_skipped_frame d s); [reflexivity|reflexivity|exact A]).
  assert (Hraise : forall e s1,
             all_skipped d s1 ->
             match page_handler e (with_db (db s) s1) with
             | finished next_url s' =>
                 all_skipped d s' \/ (next_url = None /\ page_failed d s')
             | raised e' _ => e' = integer_out_of_range
             end).
  { intros e s1 A2.
    assert (A3 : all_skipped d (with_db (db s) s1)).
    { destruct A as (Hd & _), A2 as (_ & A2). unfold all_skipped. simpl.
      split; [exact Hd|exact A2]. }
    pose proof (page_handler_outcome d e _ A3) as P.
    destruct (page_handler e (with_db (db s) s1)) as [n s'|e' s']; [right|]; exact P. }
  unfold page_block, page_body, andthen, lift.
  destruct (http url) as [e|r]; [apply Hraise, A1|].
  destruct (servers_of r) as [| |entries].
  - simpl. left. exact A1.
  - apply Hraise, A1.
  - pose proof (for_each_outcome vc now d entries _ A1) as P.
    destruct (for_each _ entries _) as [[] s'|e s'].
    + simpl. left. apply P.
    + destruct P as (-> & A2 & _). apply Hraise, A2.
Qed.

Lemma pages_outcome (vc : variable_conflict) (now : Z) (http : string -> fetch_result)
    (d : database) (fuel : nat) :
  forall (next_url : option string) (s : state),
    all_skipped d s ->
    match pages vc now http fuel next_url s with
    | Some (finished _ s') => all_skipped d s' \/ page_failed d s'
    | Some (raised e _) => e = integer_out_of_range
    | None => True
    end.
Proof.
  induction fuel as [|fuel IH]; intros [url|] s A; simpl; try (left; exact A); [exact I|].
  pose proof (page_block_outcome vc now http d url s A) as P.
  destruct (page_block vc now http url s) as [next_url s'|e s']; [|exact P].
  destruct P as [P|[-> P]]; [apply IH, P|].
  rewrite pages_done. right. exact P.
Qed.

Lemma all_skipped_initial (d : database) : all_skipped d (initial d).
Proof. unfold all_skipped, int4_max; simpl. repeat split; lia. Qed.

(** X7.  No run writes to the database.  Whatever the source serves, a run
    that returns leaves the tables as it found them; and when it reports
    success, its statistics show nothing added, nothing updated, every entry
    seen skipped, and one error message per entry, plus one if a page
    failed. *)
Theorem run_never_writes (vc : variable_conflict) (now : Z)
    (http : string -> fetch_result) (fuel : nat) (d : database) (r : result) (s : state) :
  sync_mcp_servers_from_pulsemcp vc now http fuel d = Some (r, s) ->
  db s = d
  /\ (success r = true ->
      exists st,
        stats_of r = Some st
        /\ added st = 0%Z /\ updated st = 0%Z /\ skipped st = total st
        /\ (Z.of_nat (List.length (errors st)) = total st
            \/ Z.of_nat (List.length (errors st)) = (total st + 1)%Z)).
Proof.
  unfold sync_mcp_servers_from_pulsemcp.
  pose proof (pages_outcome vc now http d fuel (Some api_url) _ (all_skipped_initial d)) as P.
  destruct (pages vc now http fuel (Some api_url) (initial d)) as [[[] s'|e s']|];
    [| |discriminate].
  - simpl. intros [= <- <-]. simpl.
    destruct P as [(H1 & H2 & H3 & H4 & H5 & H6 & H7)|(H1 & H2 & H3 & H4 & H5 & H6 & H7)];
      (split; [exact H1|]); intros _; eexists; (split; [reflexivity|]); simpl;
      repeat split; try assumption; [left|right]; assumption.
  - simpl. intros [= <- <-]. simpl. split; [reflexivity|discriminate].
Qed.

Lemma run_never_writes_witness :
  exists r s,
    sync_mcp_servers_from_pulsemcp use_column 0 one_page 1
      {| servers := [stored_row]; server_install_instructions := [other_row] |}
    = Some (r, s)
    /\ db s = {| servers := [stored_row]; server_install_instructions := [other_row] |}.
Proof.
  match goal with
  | |- exists r s, ?run = Some (r, s) /\ _ =>
      let v := eval vm_compute in run in
      assert (E : run = v) by (vm_compute; reflexivity)
  end.
  eexists _, _. split; [exact E|].
  exact (proj1 (run_never_writes use_column 0 one_page 1 _ _ _ E)).
Defined.

(** ** Malformed pages and endless sources *)

(** X9.  A page without the key [servers] is an empty page: no entry is
    counted and the next page is followed.  A page whose [servers] is not an
    array ends the run like a failed fetch: one error, one message, and its
    next cursor is not followed. *)
Theorem missing_or_malformed_servers (vc : variable_conflict) (now : Z)
    (http : string -> fetch_result) (url : string) (r : response) (s : state) :
  http url = fetched r ->
  (servers_of r = servers_absent ->
   page_block vc now http url s = finished (next r) (with_request url s))
  /\ (forall kind,
      servers_of r = servers_not_array kind ->
      (0 <= error_count (vars s) < int4_max)%Z ->
      exists s',
        page_block vc now http url s = finished None s'
        /\ requests s' = (requests s ++ [url])%list
        /\ db s' = db s
        /\ server_count (vars s') = server_count (vars s)
        /\ error_count (vars s') = (error_count (vars s) + 1)%Z
        /\ error_messages (vars s')
           = (error_messages (vars s)
              ++ [fetching_message (elements_of_non_array kind)])%list).
Proof.
  intros H. split; [intros E|intros kind E].
  - unfold page_block, page_body, andthen, lift. rewrite H, E. reflexivity.
  - intros R. unfold page_block, page_body, andthen, lift. rewrite H, E.
    unfold page_handler, andthen, increment, andthen, read, lift, update. simpl.
    rewrite int4_add_one by (unfold int4_max in *; lia).
    eexists. split; [reflexivity|]. repeat split.
Qed.

Lemma missing_or_malformed_servers_witness :
  exists s',
    page_block conflict_error 0 malformed_source api_url (initial empty_database)
    = finished None s'
    /\ requests s' = [api_url]
    /\ error_messages (vars s')
       = ["Error fetching page: cannot extract elements from an object"].
Proof.
  destruct (proj2 (missing_or_malformed_servers conflict_error 0 malformed_source api_url
                     _ (initial empty_database) eq_refl) json_object eq_refl)
    as (s' & H1 & H2 & _ & _ & _ & H6).
  - simpl. unfold int4_max. lia.
  - exists s'. split; [exact H1|]. split; [exact H2|exact H6].
Defined.




(** ** Counting in the reconciler *)

Lemma present_cast (t : option string) (z : option Z) :
  bigint_cast t = Ok z -> Server.present z = Server.present t.
Proof.
  destruct t as [t|]; simpl.
  - destruct (bigint_in t); simpl; [intros [= <-]; reflexivity|discriminate].
  - intros [= <-]. reflexivity.
Qed.

(** X11.  The insert path stores the row in every case, but counts the
    entry as added only when no column of the stored row is NULL, that is
    when the entry has a value for every optional field and some tag was
    found; otherwise the entry is counted as skipped, with the message
    "Failed to insert server ...", and the block is left through CONTINUE.
    The error count is not touched. *)
Theorem insert_counted_by_row_test (vc : variable_conflict) (now : Z)
    (server_id : option string) (data : server_data) (s s' : state) (b : bool) :
  reconcile vc now server_id data None s = finished b s' ->
  exists r,
    servers (db s') = (servers (db s) ++ [r])%list
    /\ b = all_present data
    /\ error_count (vars s') = error_count (vars s)
    /\ (if b
        then added_count (vars s') = (added_count (vars s) + 1)%Z
             /\ skipped_count (vars s') = skipped_count (vars s)
             /\ error_messages (vars s') = error_messages (vars s)
        else added_count (vars s') = added_count (vars s)
             /\ skipped_count (vars s') = (skipped_count (vars s) + 1)%Z
             /\ error_messages (vars s')
                = (error_messages (vars s)
                   ++ [String.append "Failed to insert server " (or_empty server_id)])%list).
Proof.
  unfold reconcile, andthen, read, lift.
  destruct (insert_server now server_id data (servers (db s))) as [[table r]|] eqn:E;
    [|discriminate].
  assert (T : table = (servers (db s) ++ [r])%list
              /\ Server.is_not_null r = all_present data).
  { unfold insert_server in E.
    destruct (bigint_cast (data_package_download_count data)) as [downloads|] eqn:E1;
      [|discriminate E].
    destruct (bigint_cast (data_github_stars data)) as [stars|] eqn:E2; [|discriminate E].
    destruct server_id as [id|]; [|discriminate E].
    cbn [bind] in E. injection E as <- <-. split; [reflexivity|].
    unfold Server.is_not_null, all_present, inserted_row. simpl.
    rewrite (present_cast _ _ E1), (present_cast _ _ E2). reflexivity. }
  destruct T as [-> T]. rewrite T.
  unfold update, increment, andthen, read, lift, update, ret.
  destruct (all_present data); simpl.
  - destruct (int4_add (added_count (vars s)) 1) as [z|] eqn:A; simpl; [|discriminate].
    apply int4_add_ok in A. subst z.
    intros [= <- <-]. exists r. simpl. repeat split.
  - destruct (int4_add (skipped_count (vars s)) 1) as [z|] eqn:A; simpl; [|discriminate].
    apply int4_add_ok in A. subst z.
    intros [= <- <-]. exists r. simpl. repeat split.
Qed.

Lemma insert_counted_by_row_test_witness :
  exists s',
    reconcile conflict_error 9 (Some "demo-auth")
      (build_server_data 9 demo_auth "auth" (Some ["demo"; "auth"; "apps"])
         (build_documentation 9 demo_auth))
      None (initial empty_database)
    = finished false s'
    /\ List.length (servers (db s')) = 1%nat
    /\ added_count (vars s') = 0%Z
    /\ skipped_count (vars s') = 1%Z
    /\ error_messages (vars s') = ["Failed to insert server demo-auth"].
Proof.
  match goal with
  | |- exists s', ?run = finished false s' /\ _ =>
      let v := eval vm_compute in run in
      match v with
      | finished _ ?st =>
          assert (E : run = finished false st) by (vm_compute; reflexivity);
          exists st; split; [exact E|];
          destruct (insert_counted_by_row_test _ _ _ _ _ _ _ E) as (r & H1 & _ & _ & H4)
      end
  end.
  cbn beta iota in H4. destruct H4 as (H4 & H5 & H6).
  rewrite H1, H4, H5, H6. repeat split.
Defined.

Lemma find_last (A : Type) (p : A -> bool) (l : list A) (a : A) :
  find p l = None -> p a = true -> find p (l ++ [a]) = Some a.
Proof.
  induction l as [|x l IH]; simpl; intros H Ha.
  - rewrite Ha. reflexivity.
  - destruct (p x); [discriminate H|apply IH; assumption].
Qed.

Lemma find_map_unmatched (A : Type) (p : A -> bool) (u : A -> A) (l : list A) :
  find p l = None -> find p (map (fun a => if p a then u a else a) l) = None.
Proof.
  induction l as [|x l IH]; simpl; [reflexivity|].
  destruct (p x) eqn:E; [discriminate|]. rewrite E. exact IH.
Qed.

(** X12.  The upsert does not insert twice.  When no row has the
    identifier, the insert path appends one, and a lookup by the same
    identifier then finds that row; a pass over the same identifier that takes
    the update path with it leaves the number of rows and the added count as
    they are. *)
Theorem upsert_inserts_once (vc : variable_conflict) (now : Z) (id : string)
    (data : server_data) (s s1 : state) (b : bool)
    (f : option string -> Server.row -> bool) :
  is_server vc = Ok f ->
  find (f (Some id)) (servers (db s)) = None ->
  reconcile vc now (Some id) data None s = finished b s1 ->
  exists r,
    find (f (Some id)) (servers (db s1)) = Some r
    /\ Server.id r = id
    /\ forall data' b' s2,
         reconcile vc now (Some id) data' (Some r) s1 = finished b' s2 ->
         List.length (servers (db s2)) = S (List.length (servers (db s)))
         /\ added_count (vars s2) = added_count (vars s1)
         /\ exists r', find (f (Some id)) (servers (db s2)) = Some r'
                       /\ Server.created_at r' = Server.created_at r.
Proof.
  rewrite is_server_resolved. intros [= <-] Habsent H.
  apply reconcile_insert_database in H as [_ [r H]].
  unfold insert_server in H.
  destruct (bigint_cast (data_package_download_count data)) as [downloads|];
    [|discriminate H].
  destruct (bigint_cast (data_github_stars data)) as [stars|]; [|discriminate H].
  cbn [bind] in H. injection H as H <-.
  exists (inserted_row id data downloads stars now).
  assert (Hfound : find (fun r => holds (sql_eq (text (Server.id r)) (opt_text (Some id))))
                     (servers (db s1))
                   = Some (inserted_row id data downloads stars now)).
  { rewrite <- H. apply find_last; [exact Habsent|].
    simpl. rewrite String.eqb_refl. reflexivity. }
  split; [exact Hfound|]. split; [reflexivity|].
  intros data' b' s2 H2.
  assert (Hadded : added_count (vars s2) = added_count (vars s1)).
  { revert H2. unfold reconcile, andthen, read, lift.
    destruct (update_server vc now (Some id) data' (servers (db s1))) as [[t res]|];
      [|discriminate].
    unfold update, increment, andthen, read, lift, update, ret.
    destruct (match res with Some r0 => Server.is_not_null r0 | None => false end); simpl.
    - destruct (int4_add (updated_count (vars s1)) 1); simpl; [|discriminate].
      intros [= _ <-]. reflexivity.
    - destruct (int4_add (skipped_count (vars s1)) 1); simpl; [|discriminate].
      intros [= _ <-]. reflexivity. }
  apply reconcile_update_database in H2 as [_ [res H2]].
  apply update_server_rows in H2 as (downloads' & stars' & _ & _ & Ht).
  split; [|split; [exact Hadded|]].
  - rewrite Ht, length_map, <- H, length_app. simpl. lia.
  - rewrite Ht, <- H.
    exists (updated_row data' downloads' stars' now (inserted_row id data downloads stars now)).
    split; [|reflexivity].
    rewrite map_app. simpl map. rewrite String.eqb_refl. cbn [holds].
    apply find_last; [|simpl; rewrite String.eqb_refl; reflexivity].
    apply (find_map_unmatched _ (fun r => holds (sql_eq (text (Server.id r)) (text id)))).
    exact Habsent.
Qed.

Lemma upsert_inserts_once_witness :
  exists s1 r,
    reconcile conflict_error 9 (Some "other-id") (fresh_data 9) None stored_state
    = finished true s1
    /\ find (fun r => holds (sql_eq (text (Server.id r)) (opt_text (Some "other-id"))))
         (servers (db s1)) = Some r
    /\ Server.id r = "other-id".
Proof.
  match goal with
  | |- exists s1 r, ?run = finished true s1 /\ _ =>
      let v := eval vm_compute in run in
      match v with
      | finished _ ?st =>
          assert (E : run = finished true st) by (vm_compute; reflexivity);
          exists st;
          destruct (upsert_inserts_once conflict_error 9 "other-id" (fresh_data 9)
                      stored_state st true _ (is_server_resolved conflict_error)
                      eq_refl E) as (r & H1 & H2 & _)
      end
  end.
  exists r. split; [exact E|]. split; [exact H1|exact H2].
Defined.

(** ** What a pass leaves in the instruction table *)


Lemma filter_none (A : Type) (l : list A) : filter (fun _ => false) l = [].
Proof. induction l; simpl; auto. Qed.

(** X13.  What a pass for one record leaves in the instruction table depends
    on the session alone, never on the owners of the rows: under the default
    setting it raises on every input; when the conflict goes to the variable
    the whole table is replaced by the instructions of the record at hand;
    when it goes to the column only the rows without owner survive beside
    them. *)
Theorem pass_replaces_whole_table (id : string) (server : Entry.t)
    (table : list Instruction.row) :
  sync_instructions conflict_error (Some id) server table
  = Raise (ambiguous_column "server_id")
  /\ (forall table',
        sync_instructions use_variable (Some id) server table = Ok table' ->
        table' = instructions_by_spec id server)
  /\ (forall table',
        sync_instructions use_column (Some id) server table = Ok table' ->
        table' = (filter (fun r => negb (Server.present (Instruction.server_id r))) table
                  ++ instructions_by_spec id server)%list).
Proof.
  split; [reflexivity|split]; intros table' H.
  - apply (replacement_table use_variable _ id same_server_use_variable) in H.
    + rewrite H. simpl. rewrite String.eqb_refl. simpl. rewrite filter_none. reflexivity.
    + intros r _. simpl. rewrite String.eqb_refl. reflexivity.
  - apply (replacement_table use_column _ id same_server_use_column) in H.
    + rewrite H. f_equal. apply filter_ext. intros r. rewrite holds_eq_self. reflexivity.
    + intros r ->. simpl. rewrite String.eqb_refl. reflexivity.
Qed.

Lemma pass_replaces_whole_table_witness :
  instructions_by_spec "acme/demo-auth" supplied_entry
  = [Instruction.make (Some "acme/demo-auth") (Some "macOS") None
       (Some "brew install demo-auth") 0;
     Instruction.make (Some "acme/demo-auth") (Some "Linux") None
       (Some "apt install demo-auth") 1]
  /\ sync_instructions use_variable (Some "acme/demo-auth") supplied_entry
       [other_row; stale_row]
     = Ok (instructions_by_spec "acme/demo-auth" supplied_entry).
Proof.
  split; [reflexivity|].
  match goal with
  | |- ?run = _ =>
      let v := eval vm_compute in run in
      match v with
      | Ok ?t =>
          assert (E : run = Ok t) by (vm_compute; reflexivity);
          pose proof (proj1 (proj2 (pass_replaces_whole_table "acme/demo-auth"
                                      supplied_entry [other_row; stale_row])) t E) as H;
          rewrite E; exact (f_equal Ok H)
      end
  end.
Defined.

Lemma jsonb_to_recordset_all_objects (items : list install_item)
    (records : list (option string * option string * option string)) :
  jsonb_to_recordset items = Ok records -> ~ In item_not_object items.
Proof.
  revert records; induction items as [|[p i c|] items IH]; intros records; simpl.
  - intros _ [].
  - destruct (jsonb_to_recordset items) as [l|e]; simpl; [|discriminate].
    intros _ [H|H]; [discriminate H|]. exact (IH l eq_refl H).
  - discriminate.
Qed.

(** X14.  A pass that completes has seen a well-formed entry: the value of
    [install_instructions] was absent or an array (a JSON [null] or any other
    value makes the pass raise instead of falling back to the defaults), and
    every element of the array was an object. *)
Theorem sync_instructions_refuses_malformed (vc : variable_conflict)
    (server_id : option string) (server : Entry.t) (table table' : list Instruction.row) :
  sync_instructions vc server_id server table = Ok table' ->
  (forall kind, Entry.install_instructions server <> install_not_array kind)
  /\ forall items, Entry.install_instructions server = install_array items ->
                   ~ In item_not_object items.
Proof.
  unfold sync_instructions. destruct (delete_instructions vc server_id table) as [t|];
    [|discriminate]. cbn [bind]. unfold insert_instructions.
  destruct (Entry.install_instructions server) as [|kind|[|item items]]; cbn [bind].
  - intros _. split; [discriminate|]. intros items D; discriminate D.
  - discriminate.
  - intros _. split; [discriminate|]. intros items [= <-] [].
  - destruct (jsonb_to_recordset (item :: items)) as [records|] eqn:E; cbn [bind];
      [|discriminate].
    intros _. split; [discriminate|]. intros items' [= <-].
    apply (jsonb_to_recordset_all_objects _ _ E).
Qed.

Lemma sync_instructions_refuses_malformed_witness :
  (forall kind, Entry.install_instructions supplied_entry <> install_not_array kind)
  /\ forall items, Entry.install_instructions supplied_entry = install_array items ->
                   ~ In item_not_object items.
Proof.
  match goal with
  | |- _ =>
      let v := eval vm_compute in
                 (sync_instructions use_column (Some "acme/demo-auth") supplied_entry
                    [other_row]) in
      match v with
      | Ok ?t =>
          apply (sync_instructions_refuses_malformed use_column (Some "acme/demo-auth")
                   supplied_entry [other_row] t);
          vm_compute; reflexivity
      end
  end.
Defined.

Lemma sync_instructions_completes_witness :
  exists table',
    sync_instructions use_column (Some "acme/demo-auth") supplied_entry
      [other_row; stale_row] = Ok table'.
Proof.
  apply (sync_instructions_completes use_column "acme/demo-auth" supplied_entry
           [other_row; stale_row]).
  - discriminate.
  - discriminate.
  - intros items [= <-]. split.
    + simpl. intros [H|[H|[]]]; discriminate H.
    + vm_compute. discriminate.
Defined.


(** * Properties of the Python harness *)


(** X17.  [run_sync_operation] answers [None] when the command failed, and
    also when the command completed and [json.loads] raised something other
    than [JSONDecodeError] on its output.  When the command succeeded without
    printing anything it does not answer at all: the data is [None] and
    indexing it raises [TypeError]; when the command printed something in
    which [json.loads] finds no JSON, the data is a text and the lookup in
    its first character raises [AttributeError]. *)
Theorem run_sync_operation_on_bad_output (json_loads : string -> json_outcome) :
  (forall p,
     (forall stdout, p <> completed_process stdout) ->
     run_sync_operation (run_mcp_command json_loads p) = returns None)
  /\ (forall stdout explanation,
        strip stdout <> EmptyString ->
        json_loads stdout = json_other_exception explanation ->
        run_sync_operation (run_mcp_command json_loads (completed_process stdout))
        = returns None)
  /\ (forall stdout,
        strip stdout = EmptyString ->
        run_sync_operation (run_mcp_command json_loads (completed_process stdout))
        = raises TypeError)
  /\ (forall stdout,
        strip stdout <> EmptyString -> json_loads stdout = json_decode_error ->
        run_sync_operation (run_mcp_command json_loads (completed_process stdout))
        = raises AttributeError).
Proof.
  split; [|split; [|split]].
  - intros [stdout|stderr code|explanation] H; [contradiction (H stdout); reflexivity| |];
      reflexivity.
  - intros stdout explanation E J. simpl. rewrite J.
    destruct (String.eqb_spec (strip stdout) EmptyString) as [D|_]; [contradiction|].
    reflexivity.
  - intros stdout E. simpl. rewrite E. reflexivity.
  - intros stdout E J. simpl. rewrite J.
    destruct (String.eqb_spec (strip stdout) EmptyString) as [D|_]; [contradiction|].
    simpl. destruct (strip stdout) as [|c r]; [contradiction E; reflexivity|reflexivity].
Qed.

Lemma run_sync_operation_on_bad_output_witness :
  run_sync_operation (run_mcp_command no_json (called_process_error None 1)) = returns None
  /\ run_sync_operation (run_mcp_command too_deep (completed_process "[[[[")) = returns None
  /\ run_sync_operation (run_mcp_command no_json (completed_process "  ")) = raises TypeError
  /\ run_sync_operation (run_mcp_command no_json (completed_process "done"))
     = raises AttributeError.
Proof.
  destruct (run_sync_operation_on_bad_output no_json) as (H1 & _ & H3 & H4).
  destruct (run_sync_operation_on_bad_output too_deep) as (_ & H2 & _).
  split; [|split; [|split]].
  - apply H1. discriminate.
  - apply (H2 _ "maximum recursion depth exceeded"); [discriminate|reflexivity].
  - apply H3. reflexivity.
  - apply H4; [discriminate|reflexivity].
Defined.

(** X18.  The harness takes over the verdict of the procedure: from the
    object of a run that reported success, [run_sync_operation] returns the
    object, from the object of a failed run it returns [None].  So a run
    whose first page cannot be fetched is reported as a success by the
    script as well. *)
Theorem harness_reports_page_failure_as_success (vc : variable_conflict) (now : Z)
    (http : string -> fetch_result) (fuel : nat) (d : database) (e : sql_error) :
  http api_url = fetch_raises e ->
  (forall r, run_sync_operation (sync_command_result r)
             = returns (if success r then Some (result_object r) else None))
  /\ exists r s,
       sync_mcp_servers_from_pulsemcp vc now http (S fuel) d = Some (r, s)
       /\ run_sync_operation (sync_command_result r) = returns (Some (result_object r))
       /\ option_map errors (stats_of r) = Some [fetching_message e].
Proof.
  intros H.
  assert (G : forall r, run_sync_operation (sync_command_result r)
                        = returns (if success r then Some (result_object r) else None)).
  { intros r. unfold run_sync_operation, sync_command_result, result_object. simpl.
    destruct (success r); reflexivity. }
  split; [exact G|].
  unfold sync_mcp_servers_from_pulsemcp. simpl pages.
  rewrite (page_block_fetch_raises vc now http api_url e (initial d) H), pages_done
    by (simpl; unfold int4_max; lia).
  eexists _, _. split; [reflexivity|]. rewrite G. split; reflexivity.
Qed.

Lemma harness_reports_page_failure_as_success_witness :
  exists r s,
    sync_mcp_servers_from_pulsemcp conflict_error 0 source_down 1 empty_database
    = Some (r, s)
    /\ run_sync_operation (sync_command_result r) = returns (Some (result_object r))
    /\ option_map errors (stats_of r)
       = Some [fetching_message (external_error "could not connect to server")].
Proof.
  apply (proj2 (harness_reports_page_failure_as_success conflict_error 0 source_down 0
                  empty_database (external_error "could not connect to server") eq_refl)).
Defined.

(** ** The error lines *)

Lemma shown_app (a b : list line) : shown (a ++ b) = (shown a + shown b)%nat.
Proof. induction a as [|[] a IH]; simpl; rewrite ?IH; reflexivity. Qed.

Lemma omitted_app (a b : list line) : omitted (a ++ b) = (omitted a + omitted b)%nat.
Proof. induction a as [|[] a IH]; simpl; rewrite ?IH; lia. Qed.

Lemma enumerate_shown (l : list string) (k : nat) :
  shown (map (fun p => error_line (fst p) (snd p)) (enumerate k l)) = List.length l.
Proof.
  revert k; induction l as [|x l IH]; intros k; simpl; [reflexivity|].
  rewrite IH. reflexivity.
Qed.

Lemma enumerate_omitted (l : list string) (k : nat) :
  omitted (map (fun p => error_line (fst p) (snd p)) (enumerate k l)) = 0%nat.
Proof.
  revert k; induction l as [|x l IH]; intros k; simpl; [reflexivity|apply IH].
Qed.

Lemma enumerate_nth (l : list string) (k i : nat) (e : string) :
  nth_error l i = Some e ->
  In (error_line (k + i) e) (map (fun p => error_line (fst p) (snd p)) (enumerate k l)).
Proof.
  revert k i; induction l as [|x l IH]; intros k [|i]; simpl; try discriminate.
  - intros [= ->]. left. rewrite Nat.add_0_r. reflexivity.
  - intros H. right. replace (k + S i)%nat with (S k + i)%nat by lia. apply IH, H.
Qed.

(** X19.  Of a list of error messages the printers show the first five,
    numbered from 1 in the order of the list, and say how many they left out:
    every message is either shown or counted in the closing line, and an
    empty list prints nothing. *)
Theorem print_errors_caps_at_five (errors : list string) :
  shown (print_errors errors) = Nat.min 5 (List.length errors)
  /\ (shown (print_errors errors) + omitted (print_errors errors) = List.length errors)%nat
  /\ (forall i e, nth_error errors i = Some e -> (i < 5)%nat ->
                  In (error_line (S i) e) (print_errors errors))
  /\ (print_errors errors = [] <-> errors = []).
Proof.
  destruct errors as [|x errors]; [repeat split; try reflexivity; intros [|i] e; discriminate|].
  pose (l := x :: errors). change (x :: errors) with l.
  assert (P : print_errors l
              = ((errors_header (List.length l)
                  :: map (fun p => error_line (fst p) (snd p)) (enumerate 1 (firstn 5 l)))
                 ++ (if (5 <? List.length l)%nat then [more_errors (List.length l - 5)]
                     else []))%list) by reflexivity.
  assert (L : (0 < List.length l)%nat) by (simpl; lia).
  assert (N : l <> []) by discriminate.
  clearbody l. rewrite P. clear P.
  rewrite shown_app, omitted_app. cbn [shown omitted].
  rewrite enumerate_shown, enumerate_omitted, length_firstn.
  assert (I : forall i e, nth_error l i = Some e -> (i < 5)%nat ->
                In (error_line (S i) e)
                   (map (fun p => error_line (fst p) (snd p)) (enumerate 1 (firstn 5 l)))).
  { intros i e H Hi. apply (enumerate_nth (firstn 5 l) 1 i e).
    rewrite nth_error_firstn. destruct (Nat.ltb_spec i 5); [exact H|lia]. }
  destruct (Nat.ltb_spec 5 (List.length l)) as [B|B]; cbn [shown omitted].
  - split; [lia|]. split; [lia|]. split; [|split; [discriminate|contradiction]].
    intros i e H Hi. apply in_or_app. left. right. apply I; assumption.
  - split; [lia|]. split; [lia|]. split; [|split; [discriminate|contradiction]].
    intros i e H Hi. apply in_or_app. left. right. apply I; assumption.
Qed.

(** ** Tokens *)




Lemma repeat_char_length (c : ascii) (n : nat) : String.length (repeat_char c n) = n.
Proof. induction n; simpl; [reflexivity|rewrite IHn; reflexivity]. Qed.

Lemma append_length (a b : string) :
  String.length (a ++ b) = (String.length a + String.length b)%nat.
Proof. induction a as [|c a IH]; simpl; [reflexivity|rewrite IH; reflexivity]. Qed.

Lemma append_empty (a : string) : (a ++ EmptyString)%string = a.
Proof. induction a as [|c a IH]; simpl; [reflexivity|rewrite IH; reflexivity]. Qed.

(** X21.  The payload handed to the base64 decoder is the middle part of
    the token followed by at most three [=], and its length is a multiple of
    four. *)
Theorem pad_aligns (payload : string) :
  (String.length (pad payload) mod 4 = 0)%nat
  /\ exists k, (k < 4)%nat /\ pad payload = (payload ++ repeat_char "=" k)%string.
Proof.
  unfold pad. destruct (Nat.eqb_spec (String.length payload mod 4) 0) as [E|N].
  - split; [exact E|]. exists 0%nat. split; [lia|]. simpl. rewrite append_empty. reflexivity.
  - pose proof (Nat.mod_upper_bound (String.length payload) 4 ltac:(lia)) as B.
    split.
    + rewrite append_length, repeat_char_length.
      pose proof (Nat.div_mod_eq (String.length payload) 4) as D.
      replace (String.length payload + (4 - String.length payload mod 4))%nat
        with (((String.length payload / 4) + 1) * 4)%nat by lia.
      apply Nat.Div0.mod_mul.
    + exists (4 - String.length payload mod 4)%nat. split; [lia|reflexivity].
Qed.

Lemma generate_server_id_lowercase_name_witness :
  generate_server_id (Some "demo  auth!") None = Ok (Some (fallback_by_spec "demo  auth!")).
Proof. apply (generate_server_id_lowercase_name "demo  auth!"). reflexivity. Defined.
